(** * imbibe: the identifier-to-citation pipeline, embedded and verified

    A shallow embedding of [imbibe/__main__.py] and [imbibe/bibextract.py].
    Python strings are sequences of Unicode code points, exceptions are
    values of [exn], printing and calls to the remote services are events
    of a trace, and objects that the program mutates live in a store. *)

From Stdlib Require Import Strings.String Strings.Ascii.
From stdpp Require Import base option list gmap pretty.

Local Open Scope N_scope.
Local Open Scope list_scope.

(** ** Strings *)

(** A Python [str] is a list of code points. *)
Definition char := N.
Definition str := list char.

(** [ch] and [py] embed ASCII literals. *)
Definition ch (a : ascii) : char := N_of_ascii a.
Definition py (s : string) : str := ch <$> list_ascii_of_string s.
Arguments ch : simpl never.
Arguments py : simpl never.

(** The character tables of the interpreter ([str.isspace], [str.isupper],
    [str.isalpha], [str.isalnum], [str.lower]) and of the [unidecode]
    package are external to the program. *)
Class Unicode := {
  isspace : char → bool;
  isupper : char → bool;
  isalpha : char → bool;
  isalnum : char → bool;
  lower : str → str;
  unidecode : str → str
}.

(** [s.split(sep)] for a one-character separator, and more generally a
    split at every character satisfying [p]. *)
Fixpoint split_when (p : char → bool) (s : str) : list str :=
  match s with
  | [] => [[]]
  | c :: s' =>
      if p c then [] :: split_when p s'
      else match split_when p s' with
           | w :: ws => (c :: w) :: ws
           | [] => [[c]]
           end
  end.

Definition split_on (sep : char) (s : str) : list str :=
  split_when (N.eqb sep) s.

(** [sep in s] for a one-character [sep]. *)
Definition contains (sep : char) (s : str) : bool :=
  existsb (N.eqb sep) s.

Definition is_nil {A} (l : list A) : bool :=
  match l with [] => true | _ => false end.

Fixpoint drop_while {A} (p : A → bool) (l : list A) : list A :=
  match l with
  | [] => []
  | x :: l' => if p x then drop_while p l' else l
  end.

Section strings.
Context `{!Unicode}.

(** [s.split()]: the maximal runs of non-whitespace characters. *)
Definition split_ws (s : str) : list str :=
  List.filter (λ w, negb (is_nil w)) (split_when isspace s).

(** [s.strip()]. *)
Definition strip (s : str) : str :=
  reverse (drop_while isspace (reverse (drop_while isspace s))).

(** [\w] in a [str] pattern. *)
Definition isword (c : char) : bool := isalnum c || (c =? ch "_").

(** [re.split('(\W)', s)]: the separators are kept as pieces. *)
Fixpoint re_split_W (s : str) : list str :=
  match s with
  | [] => [[]]
  | c :: s' =>
      if isword c then
        match re_split_W s' with
        | w :: ws => (c :: w) :: ws
        | [] => [[c]]
        end
      else [] :: [c] :: re_split_W s'
  end.
End strings.

(** [re.split(r'(?<!\\)\[|(?<!\\)\]', s)]: a split at every bracket that
    is not preceded by a backslash; [prev] is the character before [s]. *)
Definition is_bracket (c : char) : bool := (c =? ch "[") || (c =? ch "]").
Definition is_backslash (c : char) : bool := c =? ch "\".

Fixpoint re_split_brackets (prev : bool) (s : str) : list str :=
  match s with
  | [] => [[]]
  | c :: s' =>
      if is_bracket c && negb prev then [] :: re_split_brackets false s'
      else match re_split_brackets (is_backslash c) s' with
           | w :: ws => (c :: w) :: ws
           | [] => [[c]]
           end
  end.

(** [unescape_string]: [re.sub(r'(?<!\\)\\', '', s)] deletes every
    backslash that is not preceded by a backslash of the input. *)
Fixpoint unescape_from (prev : bool) (s : str) : str :=
  match s with
  | [] => []
  | c :: s' =>
      if is_backslash c && negb prev then unescape_from true s'
      else c :: unescape_from (is_backslash c) s'
  end.

Definition unescape_string (s : str) : str := unescape_from false s.

(** ** Exceptions and effects *)

Inductive exn :=
| ValueError (msg : str)
| RuntimeError (msg : str)
| IndexError
| KeyError (key : str)
| AttributeError (name : string)
| TypeError
| AssertionError
| ZeroDivisionError
| SystemExit (code : Z)
| ServiceError (args : list str).

Inductive result (A : Type) :=
| Ok (a : A)
| Raise (e : exn).
Arguments Ok {A} a.
Arguments Raise {A} e.

#[export] Instance result_ret : MRet result := λ A a, Ok a.
#[export] Instance result_bind : MBind result := λ A B f r,
  match r with
  | Ok a => f a
  | Raise e => Raise e
  end.

(** [l[i]] for a non-negative index. *)
Definition index {A} (l : list A) (i : nat) : result A :=
  match l !! i with
  | Some x => Ok x
  | None => Raise IndexError
  end.

(** ** Data *)

(** A result of the preprint service: the keys [authors], [title],
    [summary] and [doi] of the [arxiv] package's result dictionaries. *)
Record arxivresult := {
  ar_authors : list str;
  ar_title : str;
  ar_summary : str;
  ar_doi : option str
}.

(** A response of the document service. A key of the JSON object that may
    be missing is an [option]; reading a missing key is a [KeyError]. *)
Record cr_author := {
  family : option str;
  given : option str
}.

Record cr_issued := {
  date_parts : option (list (list Z))
}.

Record cr_message := {
  m_type : option str;
  m_author : option (list cr_author);
  m_container_title : option (list str);
  m_short_container_title : option (list str);
  m_issued : option cr_issued;
  m_title : option (list str);
  m_volume : option str;
  m_article_number : option str;
  m_page : option str
}.

Record cr_response := {
  message : option cr_message
}.

(** An attribute that [__init__] does not assign exists only once some
    other code has assigned it; reading it before is an [AttributeError]. *)
Inductive attribute (A : Type) :=
| absent
| present (v : A).
Arguments absent {A}.
Arguments present {A} v.

Definition getattr {A} (name : string) (a : attribute A) : result A :=
  match a with
  | present v => Ok v
  | absent => Raise (AttributeError name)
  end.

(** [class BibItem]. The first ten fields are assigned by [__init__];
    Python's [None] is the [None] of [option]. *)
Record BibItem := {
  canonical_id : str;
  arxivid : option str;
  doi : option str;
  journal : option str;
  detailed_authors : option (list cr_author);
  bibtex_id : option str;
  abstract : option str;
  comment : option str;
  arxiv_populated : bool;
  doi_populated : bool;
  suppress_volumewarning : attribute bool;
  origcase : attribute (option bool);
  extra_bibtex_fields : attribute (list (str * str));
  authors : attribute (list str);
  title : attribute str;
  journal_short : attribute str;
  year : attribute Z;
  volume : attribute (option str);
  page : attribute str
}.

(** The module-level settings: [optional_bibtex_fields] of [imbibe.opts],
    the lines of [capitalized_words.txt] and of [badjournals.txt]. *)
Class Settings := {
  optional_bibtex_fields : list str;
  protected_words : list str;
  badjournals : list str
}.

(** What the program does to the outside, in order. [Print] and
    [PrintErr] carry the argument of a [print] to the output and to
    [sys.stderr]; the other printing events carry the object printed. *)
Inductive event :=
| Print (line : str)
| PrintErr (line : str)
| PrintErrList (l : list str)
| PrintResponse (r : cr_response)
| PrintMessage (m : cr_message)
| ArxivQuery (id_list : list str) (max_results : nat)
| ArxivQueryStr (id_list : str)
| CrossrefWorks (ids : list str)
| ProgressBar (n : nat)
| Sleep.

(** A computation that prints, calls services and may raise. *)
Definition M (A : Type) : Type := list event * result A.

#[export] Instance M_ret : MRet M := λ A a, ([], Ok a).
#[export] Instance M_bind : MBind M := λ A B f m,
  match m with
  | (t, Ok a) => let '(t', r) := f a in (t ++ t', r)
  | (t, Raise e) => (t, Raise e)
  end.

Definition emit (e : event) : M unit := ([e], Ok tt).
Definition raise {A} (e : exn) : M A := ([], Raise e).
Definition lift {A} (r : result A) : M A := ([], r).

(** [BibItem.__init__]: the object it leaves behind, and the check that
    precedes the assignments. *)
Definition new_BibItem (canonical_id : str) (arxivid doi : option str) : BibItem :=
  {| canonical_id := canonical_id;
     arxivid := arxivid;
     doi := doi;
     journal := None;
     detailed_authors := None;
     bibtex_id := None;
     abstract := None;
     comment := None;
     arxiv_populated := false;
     doi_populated := false;
     suppress_volumewarning := absent;
     origcase := absent;
     extra_bibtex_fields := absent;
     authors := absent;
     title := absent;
     journal_short := absent;
     year := absent;
     volume := absent;
     page := absent |}.

Definition BibItem_init (arxivid doi : option str) : result BibItem :=
  match arxivid, doi with
  | None, None =>
      Raise (ValueError (py "Need to specify either arXiv ID or DOI!"))
  | Some a, _ => Ok (new_BibItem (py "arXiv:" ++ a) arxivid doi)
  | None, Some d => Ok (new_BibItem (py "doi:" ++ d) arxivid doi)
  end.

(** ** The directive parser *)

(** The local variables of [init_from_input_file_line] that the loop over
    the options updates. *)
Record parse_state := {
  p_doi : option str;
  p_bibtex_id : option str;
  p_suppress_volumewarning : bool;
  p_comment : option str;
  p_origcase : option bool;
  p_extra_bibtex_fields : list (str * str)
}.

(** [d[key] = value] on a dictionary kept in insertion order. *)
Fixpoint dict_set (key value : str) (d : list (str * str)) : list (str * str) :=
  match d with
  | [] => [(key, value)]
  | (k, v) :: d' =>
      if bool_decide (k = key) then (k, value) :: d'
      else (k, v) :: dict_set key value d'
  end.

Section parser.
Context `{!Unicode} `{!Settings}.

(** The body of the loop [for opt in opts.split(",")]: the chain of
    [if key == ...] first, then the statements before it. *)
Definition apply_option (st : parse_state) (key value : str)
  : result parse_state :=
  if bool_decide (key = py "doi") then
    match p_doi st with
    | Some _ => Raise (RuntimeError (py "Specified DOI twice."))
    | None =>
        Ok {| p_doi := Some value;
              p_bibtex_id := p_bibtex_id st;
              p_suppress_volumewarning := p_suppress_volumewarning st;
              p_comment := p_comment st;
              p_origcase := p_origcase st;
              p_extra_bibtex_fields := p_extra_bibtex_fields st |}
    end
  else if bool_decide (key = py "bibtex_id") then
    Ok {| p_doi := p_doi st;
          p_bibtex_id := Some value;
          p_suppress_volumewarning := p_suppress_volumewarning st;
          p_comment := p_comment st;
          p_origcase := p_origcase st;
          p_extra_bibtex_fields := p_extra_bibtex_fields st |}
  else if bool_decide (key = py "suppress_volumewarning") then
    if bool_decide (value = py "yes") then
      Ok {| p_doi := p_doi st;
            p_bibtex_id := p_bibtex_id st;
            p_suppress_volumewarning := true;
            p_comment := p_comment st;
            p_origcase := p_origcase st;
            p_extra_bibtex_fields := p_extra_bibtex_fields st |}
    else if bool_decide (value = py "no") then Ok st
    else Raise (RuntimeError (py "Invalid value: '" ++ value ++ py "'"))
  else if bool_decide (key = py "comment") then
    Ok {| p_doi := p_doi st;
          p_bibtex_id := p_bibtex_id st;
          p_suppress_volumewarning := p_suppress_volumewarning st;
          p_comment := Some (unescape_string value);
          p_origcase := p_origcase st;
          p_extra_bibtex_fields := p_extra_bibtex_fields st |}
  else if bool_decide (key = py "origcase") then
    let set_origcase (v : option bool) :=
      {| p_doi := p_doi st;
         p_bibtex_id := p_bibtex_id st;
         p_suppress_volumewarning := p_suppress_volumewarning st;
         p_comment := p_comment st;
         p_origcase := v;
         p_extra_bibtex_fields := p_extra_bibtex_fields st |} in
    if bool_decide (value = py "yes") then Ok (set_origcase (Some true))
    else if bool_decide (value = py "no") then Ok (set_origcase (Some false))
    else if bool_decide (value = py "auto") then Ok (set_origcase None)
    else Ok st
  else if bool_decide (key ∈ optional_bibtex_fields) then
    Ok {| p_doi := p_doi st;
          p_bibtex_id := p_bibtex_id st;
          p_suppress_volumewarning := p_suppress_volumewarning st;
          p_comment := p_comment st;
          p_origcase := p_origcase st;
          p_extra_bibtex_fields :=
            dict_set key (unescape_string value) (p_extra_bibtex_fields st) |}
  else Raise (RuntimeError (py "Invalid option name: '" ++ key ++ py "'")).

Definition process_opt (st : parse_state) (opt : str) : result parse_state :=
  let opt := strip opt in
  let opt_split := split_on (ch ":") opt in
  key ← index opt_split 0;
  value ← index opt_split 1;
  apply_option st key value.

Fixpoint process_opts (st : parse_state) (opts : list str) : result parse_state :=
  match opts with
  | [] => Ok st
  | opt :: opts' => st' ← process_opt st opt; process_opts st' opts'
  end.

(** The identifier part of a line: [doi] and [arxivid] after
    [main = splitline[0].strip()] has been examined. *)
Definition main_of (line : str) : str :=
  strip (default [] (head (re_split_brackets false line))).

Definition main_doi (main : str) : option str :=
  if bool_decide (take 4 main = py "doi:") then Some (drop 4 main) else None.

Definition main_arxivid (main : str) : option str :=
  if bool_decide (take 4 main = py "doi:") then None else Some main.

(** The options the loop runs over: [splitline[1].split(",")] when the
    line has a bracket, none otherwise. *)
Definition options_of (line : str) : list str :=
  match re_split_brackets false line with
  | _ :: opts :: _ => split_on (ch ",") opts
  | _ => []
  end.

(** [init_from_input_file_line] from the split of the line to the
    finished object, that is, after the look-up in the cache has failed
    and before the object is stored there: the variables before the loop,
    the loop, and the construction of the object. *)
Definition initial_state (main : str) : parse_state :=
  {| p_doi := main_doi main;
     p_bibtex_id := None;
     p_suppress_volumewarning := false;
     p_comment := None;
     p_origcase := None;
     p_extra_bibtex_fields := [] |}.

Definition build_bibitem (main : str) (st : parse_state) : result BibItem :=
  bibitem ← BibItem_init (main_arxivid main) (p_doi st);
  Ok {| canonical_id := canonical_id bibitem;
        arxivid := arxivid bibitem;
        doi := doi bibitem;
        journal := journal bibitem;
        detailed_authors := detailed_authors bibitem;
        bibtex_id := p_bibtex_id st;
        abstract := abstract bibitem;
        comment := p_comment st;
        arxiv_populated := arxiv_populated bibitem;
        doi_populated := doi_populated bibitem;
        suppress_volumewarning := present (p_suppress_volumewarning st);
        origcase := present (p_origcase st);
        extra_bibtex_fields := present (p_extra_bibtex_fields st);
        authors := authors bibitem;
        title := title bibitem;
        journal_short := journal_short bibitem;
        year := year bibitem;
        volume := volume bibitem;
        page := page bibitem |}.

Definition parse_line (line : str) : result BibItem :=
  let main := main_of line in
  st ← process_opts (initial_state main) (options_of line);
  build_bibitem main st.

(** The key and the value that the loop reads in an option. *)
Definition option_key (opt : str) : option str :=
  split_on (ch ":") (strip opt) !! 0%nat.

Definition option_value (opt : str) : option str :=
  split_on (ch ":") (strip opt) !! 1%nat.

(** The keys with a branch in the loop. *)
Definition recognized_keys : list str :=
  [py "doi"; py "bibtex_id"; py "suppress_volumewarning"; py "comment";
   py "origcase"] ++ optional_bibtex_fields.

(** The objects of the run and [BibItem.cache], which maps a line to the
    object made from it. An object is named by its position in [heap]. *)
Record world := {
  heap : list BibItem;
  cache : gmap str nat
}.

Definition init_from_input_file_line (w : world) (line : str)
  : result (nat * world) :=
  match cache w !! line with
  | Some r => Ok (r, w)
  | None =>
      bibitem ← parse_line line;
      let r := length (heap w) in
      Ok (r, {| heap := heap w ++ [bibitem];
                cache := <[line := r]> (cache w) |})
  end.

End parser.

(** ** The citation formatter *)

(** [format_author] and [format_authorlist]. *)
Definition format_author (auth : cr_author) : result str :=
  match family auth, given auth with
  | None, _ => Raise (KeyError (py "family"))
  | Some _, None => Raise (KeyError (py "given"))
  | Some f, Some g => Ok (f ++ py ", " ++ g)
  end.

Definition format_authorlist (l : list str) : str :=
  match last l with
  | None => []
  | Some x => concat ((λ s, s ++ py " and ") <$> take (length l - 1) l) ++ x
  end.

(** [process_text], which [myprint] applies to what it prints when the
    program reads a file of directives. *)
Definition process_text (text : str) : str :=
  text ≫= λ c,
    if c =? 8200 then py " "
    else if c =? 8722 then py "--"
    else [c].

Section formatter.
Context `{!Unicode} `{!Settings}.

Definition strip_nonalphabetic (s : str) : str := List.filter isalpha s.

Definition make_bibtexid_from_arxivid (firstauthorlastname arxivid : str)
  : result str :=
  yymm ← (if contains (ch "/") arxivid then
            seg ← index (split_on (ch "/") arxivid) 1;
            Ok (take 4 seg)
          else
            yymm ← index (split_on (ch ".") arxivid) 0;
            if bool_decide (length yymm = 4%nat) then Ok yymm
            else Raise AssertionError);
  Ok (unidecode (strip_nonalphabetic firstauthorlastname) ++ py "_" ++ yymm).

(** [protect_words]; its first effect is the [print] of the split. *)
Definition protect_word (word : str) : str :=
  match word with
  | [] => word
  | c :: _ =>
      if isupper c && bool_decide (word ∈ protected_words)
      then py "{" ++ word ++ py "}"
      else word
  end.

Definition protect_words (title : str) : M str :=
  let split := re_split_W title in
  emit (PrintErrList split);;
  mret (concat (protect_word <$> split)).

(** [origcase_heuristic]. The quotient [ncapitalized / n] is compared
    with one half; for counts of words the comparison of the floating
    quotient is that of [2 * ncapitalized] with [n]. *)
Fixpoint count_capitalized (words : list str) : result nat :=
  match words with
  | [] => Ok 0%nat
  | word :: words' =>
      c ← index word 0;
      k ← count_capitalized words';
      Ok ((if isupper c then 1 else 0) + k)%nat
  end.

Definition origcase_heuristic (title : str) : result bool :=
  let words := split_ws title in
  let n := length words in
  ncapitalized ← count_capitalized words;
  if bool_decide (n = 0%nat) then Raise ZeroDivisionError
  else if bool_decide (n < 2 * ncapitalized)%nat then Ok false
  else Ok true.

Definition first_author_lastname (b : BibItem) : result str :=
  match detailed_authors b with
  | Some l =>
      a ← index l 0;
      match family a with
      | Some f => Ok f
      | None => Raise (KeyError (py "family"))
      end
  | None =>
      l ← getattr "authors" (authors b);
      a ← index l 0;
      match last (split_on (ch " ") a) with
      | Some x => Ok x
      | None => Raise IndexError
      end
  end.

Definition generate_bibtexid (b : BibItem) : result str :=
  match bibtex_id b with
  | Some i => Ok i
  | None =>
      match arxivid b with
      | None =>
          Raise (ValueError (py ("For papers not referenced by arXiv ID, you have to"
                                 ++ "manually specify a BibTeX ID.")))
      | Some a =>
          name ← first_author_lastname b;
          make_bibtexid_from_arxivid name a
      end
  end.

(** [output_bib], in the order of its statements: the key, the comment
    and the lines up to the preprint reference; *)
Definition output_opening (b : BibItem) (eprint_published : bool) : M unit :=
  _ ← lift (match bibtex_id b with
            | Some i => Ok i
            | None => generate_bibtexid b
            end);
  match comment b with
  | Some c => emit (Print c)
  | None => mret tt
  end;;
  key ← lift (generate_bibtexid b);
  emit (Print (py "@article{" ++ key ++ py ","));;
  match abstract b with
  | Some a => emit (Print (py "  abstract={" ++ a ++ py "},"))
  | None => mret tt
  end;;
  match arxivid b with
  | Some a =>
      if match doi b with None => true | Some _ => eprint_published end then
        emit (Print (py "  archiveprefix={arXiv},"));;
        emit (Print (py "  eprint={" ++ a ++ py "},"))
      else mret tt
  | None => mret tt
  end.

(** the journal block; *)
Definition output_journal (b : BibItem) : M unit :=
  match journal b with
  | Some _ =>
      journal_short ← lift (getattr "journal_short" (journal_short b));
      emit (Print (py "  journal={" ++ journal_short ++ py "},"));;
      page ← lift (getattr "page" (page b));
      emit (Print (py "  pages={" ++ page ++ py "},"));;
      year ← lift (getattr "year" (year b));
      emit (Print (py "  year={" ++ py (pretty year) ++ py "},"));;
      volume ← lift (getattr "volume" (volume b));
      match volume with
      | Some v => emit (Print (py "  volume={" ++ v ++ py "},"))
      | None =>
          suppress ← lift (getattr "suppress_volumewarning"
                                   (suppress_volumewarning b));
          if negb suppress then
            emit (PrintErr (py "WARNING: No volume in CrossRef data for paper:"));;
            title ← lift (getattr "title" (title b));
            emit (PrintErr (py "   " ++ title))
          else mret tt
      end
  | None => mret tt
  end.

(** the document id; *)
Definition output_doi (b : BibItem) : M unit :=
  match doi b with
  | Some d => emit (Print (py "  doi={" ++ d ++ py "},"))
  | None => mret tt
  end.

(** the title, under the case policy of the record; *)
Definition output_title (b : BibItem) : M unit :=
  let origcase :=
    match origcase b with
    | present v => v
    | absent => None
    end in
  origcase ← match origcase with
             | Some v => mret v
             | None =>
                 title ← lift (getattr "title" (title b));
                 lift (origcase_heuristic title)
             end;
  title ← lift (getattr "title" (title b));
  if origcase : bool then
    emit (Print (py "  title={{" ++ title ++ py "}},"))
  else
    protected ← protect_words title;
    emit (Print (py "  title={" ++ protected ++ py "},")).

(** the extra fields, the authors and the closing lines. *)
Definition output_closing (b : BibItem) : M unit :=
  let extra_bibtex_fields :=
    match extra_bibtex_fields b with
    | present d => d
    | absent => []
    end in
  mapM (λ kv : str * str,
          emit (Print (py "  " ++ kv.1 ++ py "={" ++ kv.2 ++ py "},")))
       extra_bibtex_fields;;
  authors ← lift (getattr "authors" (authors b));
  emit (Print (py "  author={" ++ format_authorlist authors ++ py "}"));;
  emit (Print (py "}"));;
  emit (Print (py "")).

Definition output_bib (b : BibItem) (eprint_published : bool) : M unit :=
  output_opening b eprint_published;;
  output_journal b;;
  output_doi b;;
  output_title b;;
  output_closing b.

End formatter.

(** ** The resolvers *)

(** What a call of a remote service gives: a value, or an exception, of
    which the program only ever reads [args]. *)
Inductive reply (A : Type) :=
| Returns (a : A)
| Fails (args : list str).
Arguments Returns {A} a.
Arguments Fails {A} args.

(** The services: [arxiv.query(id_list=ids, max_results=n)],
    [arxiv.query(id_list=s)] with the string that the fallback passes, and
    [cr.works(ids=dois)]. *)
Class Services := {
  arxiv_query : list str → nat → reply (list arxivresult);
  arxiv_query_str : str → reply (list arxivresult);
  cr_works : list str → reply cr_response
}.

(** [read_arxiv_information]: the object after the call. *)
Definition read_arxiv_information (b : BibItem) (arxivresult : arxivresult)
  : M BibItem :=
  let updated (doi : option str) :=
    {| canonical_id := canonical_id b;
       arxivid := arxivid b;
       doi := doi;
       journal := journal b;
       detailed_authors := detailed_authors b;
       bibtex_id := bibtex_id b;
       abstract := Some (ar_summary arxivresult);
       comment := comment b;
       arxiv_populated := true;
       doi_populated := doi_populated b;
       suppress_volumewarning := suppress_volumewarning b;
       origcase := origcase b;
       extra_bibtex_fields := extra_bibtex_fields b;
       authors := present (ar_authors arxivresult);
       title := present (ar_title arxivresult);
       journal_short := journal_short b;
       year := year b;
       volume := volume b;
       page := page b |} in
  match doi b, ar_doi arxivresult with
  | Some mine, Some theirs =>
      if bool_decide (mine ≠ theirs) then
        match arxivid b with
        | None => raise TypeError
        | Some a =>
            emit (PrintErr (py "WARNING: manually specified DOI for arXiv:" ++ a
                            ++ py " disagrees with arXiv information."));;
            emit (PrintErr (py "You have: "));;
            emit (PrintErr (py "arXiv has: " ++ theirs));;
            emit (PrintErr (py "Using your DOI."));;
            emit (PrintErr (py ""));;
            mret (updated (doi b))
        end
      else mret (updated (Some theirs))
  | None, Some theirs => mret (updated (Some theirs))
  | _, None => mret (updated (doi b))
  end.

(** The loop [for bibitem,result in zip(...)]: the objects are updated in
    the store one after the other. *)
Fixpoint read_all {R} (read : BibItem → R → M BibItem)
    (h : list BibItem) (pairs : list (nat * R)) : M (list BibItem) :=
  match pairs with
  | [] => mret h
  | (r, result) :: pairs' =>
      match h !! r with
      | Some b =>
          b' ← read b result;
          read_all read (<[r := b']> h) pairs'
      | None => read_all read h pairs'
      end
  end.

Section resolvers.
Context `{!Unicode} `{!Settings} `{!Services}.

(** The fallback of [populate_arxiv_information]: one query per id. *)
Fixpoint query_individually (arxiv_ids : list str) : M (list arxivresult) :=
  match arxiv_ids with
  | [] => mret []
  | id :: arxiv_ids' =>
      emit (ArxivQueryStr id);;
      result ← match arxiv_query_str id with
               | Returns (x :: _) => mret x
               | Returns [] =>
                   emit (PrintErr (py "arXiv ID not found (or other error): " ++ id));;
                   raise IndexError
               | Fails args =>
                   emit (PrintErr (py "arXiv ID not found (or other error): " ++ id));;
                   raise (ServiceError args)
               end;
      results ← query_individually arxiv_ids';
      mret (result :: results)
  end.

Definition pending_arxiv (h : list BibItem) (r : nat) : bool :=
  match h !! r with
  | Some b => bool_decide (is_Some (arxivid b)) && negb (arxiv_populated b)
  | None => false
  end.

Definition populate_arxiv_information (h : list BibItem)
    (list_of_bibitems : list nat) : M (list BibItem) :=
  let bibitems_with_arxivid := List.filter (pending_arxiv h) list_of_bibitems in
  let arxiv_ids := omap (λ r, h !! r ≫= arxivid) bibitems_with_arxivid in
  if bool_decide (length arxiv_ids = 0%nat) then mret h
  else
    emit (ArxivQuery arxiv_ids (length arxiv_ids));;
    results ← match arxiv_query arxiv_ids (length arxiv_ids) with
              | Returns results => mret results
              | Fails args =>
                  a0 ← lift (index args 0);
                  if bool_decide (a0 ≠ py "HTTP Error 400 in query")
                  then raise (ServiceError args)
                  else query_individually arxiv_ids
              end;
    if bool_decide (length results ≠ length arxiv_ids) then
      raise (RuntimeError (py "arXiv returned wrong number of papers."))
    else
      read_all read_arxiv_information h (zip bibitems_with_arxivid results).

(** [crossref_read]. With [chunk_size = 1] every slice [dois[i:(i+1)]] of
    the loop has one element, so the call of [crossref_read] on it runs
    the first branch: [crossref_read_chunk] is that branch, and the loop
    of [crossref_read] calls it. What the first branch returns for no id
    at all is the reply of the service itself, not a list. *)
Definition chunk_size : nat := 1.

Inductive works_results :=
| Bare (r : cr_response)
| Listed (l : list cr_response).

Definition crossref_read_chunk (dois : list str) : M works_results :=
  emit (CrossrefWorks dois);;
  match cr_works dois with
  | Returns results =>
      if bool_decide (length dois = 1%nat) then mret (Listed [results])
      else mret (Bare results)
  | Fails args => raise (ServiceError args)
  end.

Fixpoint crossref_read_loop (dois : list str) : M (list cr_response) :=
  match dois with
  | [] => mret []
  | d :: dois' =>
      chunk ← crossref_read_chunk [d];
      match chunk with
      | Listed l =>
          emit Sleep;;
          results ← crossref_read_loop dois';
          mret (l ++ results)
      | Bare _ => raise TypeError
      end
  end.

Definition crossref_read (dois : list str) : M works_results :=
  if bool_decide (length dois ≤ chunk_size)%nat then crossref_read_chunk dois
  else
    (if bool_decide (5 < length dois)%nat then
       emit (PrintErr (py "Retrieving Crossref data (might take a while)..."));;
       emit (ProgressBar (length dois))
     else mret tt);;
    results ← crossref_read_loop dois;
    mret (Listed results).

(** [bad_journal_exit] and [bad_type_exit]: an explanation, then
    [sys.exit(1)]. *)
Definition bad_journal_exit {A} (journalname : str) : M A :=
  emit (PrintErr (py "The following journal is known to have improper Crossref data:"));;
  emit (PrintErr (py "    " ++ journalname));;
  emit (PrintErr (py "You will need to add papers from this journal to your BibTeX file manually."));;
  emit (PrintErr (py "Exiting with error."));;
  raise (SystemExit 1).

Definition bad_type_exit {A} (b : BibItem) (crossref_type : str) : M A :=
  emit (PrintErr (py "The Crossref entry with DOI:"));;
  match doi b with
  | None => raise TypeError
  | Some d => emit (PrintErr (py "    " ++ d))
  end;;
  match arxivid b with
  | Some a =>
      emit (PrintErr (py "linked to arXiv ID:"));;
      emit (PrintErr (py "    " ++ a))
  | None => mret tt
  end;;
  emit (PrintErr (py "has type:"));;
  emit (PrintErr (py "    " ++ crossref_type));;
  emit (PrintErr (py "Currently, only type 'journal-article' is supported."));;
  emit (PrintErr (py "You will need to add this entry to your BibTeX file manually."));;
  emit (PrintErr (py "Exiting with error."));;
  raise (SystemExit 1).

(** [d[key]] on a JSON object. *)
Definition item {A} (key : string) (field : option A) : M A :=
  match field with
  | Some v => mret v
  | None => raise (KeyError (py key))
  end.

(** [read_journal_information], inside its [try]: from the message of the
    response to the object with every field assigned. *)
Definition read_message (b : BibItem) (cr_result : cr_message) : M BibItem :=
  crossref_type ← item "type" (m_type cr_result);
  (if bool_decide (crossref_type ≠ py "journal-article")
   then bad_type_exit b crossref_type
   else mret tt);;
  detailed_authors ← item "author" (m_author cr_result);
  authors ← lift (mapM format_author detailed_authors);
  container_title ← item "container-title" (m_container_title cr_result);
  journal ← lift (index container_title 0);
  (if bool_decide (journal ∈ badjournals)
   then bad_journal_exit journal
   else mret tt);;
  short_container_title ←
    item "short-container-title" (m_short_container_title cr_result);
  let journal_short :=
    match short_container_title with
    | x :: _ => x
    | [] => journal
    end in
  issued ← item "issued" (m_issued cr_result);
  date_parts ← item "date-parts" (date_parts issued);
  date ← lift (index date_parts 0);
  year ← lift (index date 0);
  titles ← item "title" (m_title cr_result);
  title ← lift (index titles 0);
  let volume := m_volume cr_result in
  page ← match m_article_number cr_result with
         | Some n => mret n
         | None =>
             p ← item "page" (m_page cr_result);
             lift (index (split_on (ch "-") p) 0)
         end;
  mret {| canonical_id := canonical_id b;
          arxivid := arxivid b;
          doi := doi b;
          journal := Some journal;
          detailed_authors := Some detailed_authors;
          bibtex_id := bibtex_id b;
          abstract := abstract b;
          comment := comment b;
          arxiv_populated := arxiv_populated b;
          doi_populated := true;
          suppress_volumewarning := suppress_volumewarning b;
          origcase := origcase b;
          extra_bibtex_fields := extra_bibtex_fields b;
          authors := present authors;
          title := present title;
          journal_short := present journal_short;
          year := present year;
          volume := present volume;
          page := present page |}.

(** [except KeyError: print(cr_result); raise], where [cr_result] is the
    object that the name is bound to by then. *)
Definition on_KeyError {A} (printed : event) (m : M A) : M A :=
  match m with
  | (t, Raise (KeyError k)) => (t ++ [printed], Raise (KeyError k))
  | _ => m
  end.

Definition read_journal_information (b : BibItem) (cr_result : cr_response)
  : M BibItem :=
  match message cr_result with
  | None =>
      on_KeyError (PrintResponse cr_result) (raise (KeyError (py "message")))
  | Some m => on_KeyError (PrintMessage m) (read_message b m)
  end.

Definition pending_doi (h : list BibItem) (r : nat) : bool :=
  match h !! r with
  | Some b => bool_decide (is_Some (doi b)) && negb (doi_populated b)
  | None => false
  end.

Definition populate_doi_information (h : list BibItem)
    (list_of_bibitems : list nat) : M (list BibItem) :=
  let bibitems_with_doi := List.filter (pending_doi h) list_of_bibitems in
  let dois := omap (λ r, h !! r ≫= doi) bibitems_with_doi in
  if bool_decide (length dois = 0%nat) then mret h
  else
    results ← crossref_read dois;
    match results with
    | Listed results =>
        read_all read_journal_information h (zip bibitems_with_doi results)
    | Bare _ => raise TypeError
    end.

End resolvers.

(** ** The reverse extractor, [bibextract.py] *)

Module bibextract.

(** [match], the result of [imbibe.crossref_find_from_journalref]. *)
Record journalref_match := {
  match_title : option (list str);
  match_DOI : option str
}.

(** The two functions of the package that [process_entry] calls: a search
    by journal reference, given its keyword arguments, and the search of
    a preprint id by document id. *)
Class Lookups := {
  crossref_find_from_journalref : gmap str str → option journalref_match;
  arxiv_find_from_doi : str → option str
}.

Definition fieldtranslations : list (str * str) :=
  [ (py "journal", py "journaltitle");
    (py "volume", py "volume");
    (py "pages", py "number");
    (py "year", py "year") ].

(** [dict((b, entry[a]) for (a,b) in fieldtranslations.items())]: [None]
    is the [KeyError] of a field that the entry lacks. *)
Fixpoint translate (entry : gmap str str) (fields : list (str * str))
  : option (gmap str str) :=
  match fields with
  | [] => Some ∅
  | (a, b) :: fields' =>
      v ← entry !! a;
      kwargs ← translate entry fields';
      Some (<[b := v]> kwargs)
  end.

Definition getitem (entry : gmap str str) (key : string) : M str :=
  match entry !! py key with
  | Some v => mret v
  | None => raise (KeyError (py key))
  end.

Section extractor.
Context `{!Unicode} `{!Lookups}.

Definition process_entry (entry : gmap str str) : M (option str) :=
  entrytype ← getitem entry "ENTRYTYPE";
  if bool_decide (entrytype ≠ py "article") then mret None
  else if bool_decide (entry !! py "imbibeable" = Some (py "no")) then mret None
  else
    match translate entry fieldtranslations return M (option str) with
    | None => mret None
    | Some kwargs =>
        let kwargs :=
          match entry !! py "title" with
          | Some t => <[py "articletitle" := t]> kwargs
          | None => kwargs
          end in
        match crossref_find_from_journalref kwargs return M (option str) with
        | None =>
            id ← getitem entry "ID";
            emit (PrintErr (py "WARNING: lookup for article with bibtex ID "
                            ++ id ++ py " failed."));;
            mret None
        | Some match_ =>
            match entry !! py "title" with
            | Some entry_title =>
                titles ← item "title" (match_title match_);
                title0 ← lift (index titles 0);
                if bool_decide (lower title0 ≠ lower entry_title) then
                  id ← getitem entry "ID";
                  emit (PrintErr (py "WARNING: titles did not agree for article with bibtex ID " ++ id));;
                  emit (PrintErr (py "Bibtex entry has title:" ++ entry_title));;
                  emit (PrintErr (py "Crossref has title:" ++ title0))
                else mret tt
            | None => mret tt
            end;;
            doi ← item "DOI" (match_DOI match_);
            id_ ← match arxiv_find_from_doi doi with
                  | None =>
                      emit (PrintErr (py "WARNING: No arXiv ID found for DOI: " ++ doi));;
                      mret (py "doi:" ++ doi)
                  | Some arxivid => mret arxivid
                  end;
            id ← getitem entry "ID";
            mret (Some (id_ ++ py " [bibtex_id:" ++ id ++ py "]"))
        end
    end.

(** [process]: the entries that stay in the database, after the lines of
    the resolved ones have been printed. *)
Fixpoint process_entries (entries : list (gmap str str))
  : M (list (gmap str str) * list str) :=
  match entries with
  | [] => mret ([], [])
  | entry :: entries' =>
      line ← process_entry entry;
      rest ← process_entries entries';
      match line with
      | None => mret (entry :: rest.1, rest.2)
      | Some line => mret (rest.1, line :: rest.2)
      end
  end.

Definition process (entries : list (gmap str str)) : M (list (gmap str str)) :=
  r ← process_entries entries;
  mapM (λ line, emit (Print line)) r.2;;
  mret r.1.

End extractor.

End bibextract.

(** ** The program with a single identifier *)

(** [bibitems[0].bibtex_id = 'ARTICLE']. *)
Definition with_bibtex_id (i : str) (b : BibItem) : BibItem :=
  {| canonical_id := canonical_id b;
     arxivid := arxivid b;
     doi := doi b;
     journal := journal b;
     detailed_authors := detailed_authors b;
     bibtex_id := Some i;
     abstract := abstract b;
     comment := comment b;
     arxiv_populated := arxiv_populated b;
     doi_populated := doi_populated b;
     suppress_volumewarning := suppress_volumewarning b;
     origcase := origcase b;
     extra_bibtex_fields := extra_bibtex_fields b;
     authors := authors b;
     title := title b;
     journal_short := journal_short b;
     year := year b;
     volume := volume b;
     page := page b |}.

Section single_identifier.
Context `{!Unicode} `{!Settings} `{!Services}.

(** The body of the program from the two resolvers on, without
    [--print-keys]: every object of [bibitems] is rendered in turn. *)
Definition resolve_and_output (h : list BibItem) (bibitems : list nat)
    (eprint_published : bool) : M unit :=
  h ← populate_arxiv_information h bibitems;
  h ← populate_doi_information h bibitems;
  mapM (λ r, match h !! r with
             | Some b => output_bib b eprint_published
             | None => mret tt
             end) bibitems;;
  mret tt.

(** [imbibe --arxiv ID] and [imbibe --doi DOI]. *)
Definition main_arxiv (arxivid : str) (eprint_published : bool) : M unit :=
  b ← lift (BibItem_init (Some arxivid) None);
  resolve_and_output [b] [0%nat] eprint_published.

Definition main_doi_argument (doi : str) (eprint_published : bool) : M unit :=
  b ← lift (BibItem_init None (Some doi));
  resolve_and_output [with_bibtex_id (py "ARTICLE") b] [0%nat] eprint_published.

End single_identifier.

(** ** The program with a file of directives *)

Section directive_file.
Context `{!Unicode} `{!Settings}.

(** [[BibItem.init_from_input_file_line(line) for line in f.readlines()
    if line.strip() != '']]: the objects of the lines, in order, and the
    world after them. *)
Fixpoint init_from_lines (w : world) (lines : list str)
  : result (list nat * world) :=
  match lines with
  | [] => Ok ([], w)
  | line :: lines' =>
      if bool_decide (strip line ≠ []) then
        first ← init_from_input_file_line w line;
        others ← init_from_lines first.2 lines';
        Ok (first.1 :: others.1, others.2)
      else init_from_lines w lines'
  end.

End directive_file.

(** ** Vocabulary of the statements *)

Definition empty_world : world := {| heap := []; cache := ∅ |}.

Section vocabulary.
Context `{!Unicode}.

(** A word that begins with an uppercase letter. *)
Definition capitalized (word : str) : bool :=
  match word with
  | c :: _ => isupper c
  | [] => false
  end.

(** The alphabetic form of a name, as the specification speaks of it:
    the alphabetic characters of the name in their order, that is, the
    subsequence of the name made of alphabetic characters only that
    every such subsequence is a part of. *)
Definition alphabetic_form (name letters : str) : Prop :=
  letters `sublist_of` name
  ∧ Forall (λ c, isalpha c = true) letters
  ∧ ∀ l, l `sublist_of` name → Forall (λ c, isalpha c = true) l →
         l `sublist_of` letters.

End vocabulary.

(** The lines that a trace sends to [sys.stderr] and that announce a
    warning. *)
Definition is_warning (e : event) : bool :=
  match e with
  | PrintErr line => bool_decide (take 8 line = py "WARNING:")
  | _ => false
  end.

Definition warnings (t : list event) : list event := List.filter is_warning t.

(** ** Tables and settings for the examples *)

(** The interpreter's tables on the code points below 256, and
    [unidecode] on ASCII and on the letters of Latin-1, the only
    characters that reach it after [strip_nonalphabetic]. The examples
    below run on them; every theorem holds for any tables. *)
Definition between (lo hi c : N) : bool := (lo <=? c) && (c <=? hi).

Definition latin1_isspace (c : char) : bool :=
  between 9 13 c || between 28 32 c || (c =? 133) || (c =? 160).

Definition latin1_isupper (c : char) : bool :=
  between 65 90 c || between 192 214 c || between 216 222 c.

Definition latin1_isalpha (c : char) : bool :=
  between 65 90 c || between 97 122 c || (c =? 170) || (c =? 181)
  || (c =? 186) || between 192 214 c || between 216 246 c
  || between 248 255 c.

Definition latin1_isalnum (c : char) : bool :=
  latin1_isalpha c || between 48 57 c || between 178 179 c || (c =? 185)
  || between 188 190 c.

Definition latin1_lower (s : str) : str :=
  (λ c, if latin1_isupper c then c + 32 else c) <$> s.

Definition latin1_unidecode (c : char) : str :=
  if between 192 197 c then py "A"
  else if c =? 198 then py "AE"
  else if c =? 199 then py "C"
  else if between 200 203 c then py "E"
  else if between 204 207 c then py "I"
  else if c =? 208 then py "D"
  else if c =? 209 then py "N"
  else if between 210 214 c || (c =? 216) then py "O"
  else if between 217 220 c then py "U"
  else if c =? 221 then py "Y"
  else if c =? 222 then py "Th"
  else if c =? 223 then py "ss"
  else if between 224 229 c || (c =? 170) then py "a"
  else if c =? 230 then py "ae"
  else if c =? 231 then py "c"
  else if between 232 235 c then py "e"
  else if between 236 239 c then py "i"
  else if c =? 240 then py "d"
  else if c =? 241 then py "n"
  else if between 242 246 c || (c =? 248) || (c =? 186) then py "o"
  else if between 249 252 c || (c =? 181) then py "u"
  else if (c =? 253) || (c =? 255) then py "y"
  else if c =? 254 then py "th"
  else [c].

Definition example_unidecode (s : str) : str := s ≫= latin1_unidecode.

Definition example_tables : Unicode :=
  {| isspace := latin1_isspace;
     isupper := latin1_isupper;
     isalpha := latin1_isalpha;
     isalnum := latin1_isalnum;
     lower := latin1_lower;
     unidecode := example_unidecode |}.

Definition example_settings (words : list str) : Settings :=
  {| optional_bibtex_fields := [py "note"; py "url"];
     protected_words := words;
     badjournals := [] |}.

(** A preprint and a preprint service for the examples: every id is that
    of a paper with the given title; the document service is down. *)
Definition example_preprint (title : str) : arxivresult :=
  {| ar_authors := [py "Ada Lovelace"];
     ar_title := title;
     ar_summary := py "An abstract.";
     ar_doi := None |}.

Definition example_services (title : str) : Services :=
  {| arxiv_query := λ ids _, Returns ((λ _, example_preprint title) <$> ids);
     arxiv_query_str := λ _, Returns [example_preprint title];
     cr_works := λ _, Fails [py "Service Unavailable"] |}.

(** The value of a computation that returns. *)
Definition value_of {A} (d : A) (m : M A) : A :=
  match m.2 with
  | Ok a => a
  | Raise _ => d
  end.

(** The record of [imbibe --arxiv 2303.01234] once the preprint resolver
    has read the preprint with the given title. *)
Definition example_record (title : str) : BibItem :=
  let b := new_BibItem (py "arXiv:2303.01234") (Some (py "2303.01234")) None in
  value_of b (read_arxiv_information b (example_preprint title)).

(** A document service for the examples: every id is that of the given
    journal article; and an article of which the service knows no
    volume. *)
Definition example_document_services (m : cr_message) : Services :=
  {| arxiv_query := λ _ _, Fails [py "Service Unavailable"];
     arxiv_query_str := λ _, Fails [py "Service Unavailable"];
     cr_works := λ _, Returns {| message := Some m |} |}.

Definition article_without_volume : cr_message :=
  {| m_type := Some (py "journal-article");
     m_author := Some [ {| family := Some (py "Lovelace");
                           given := Some (py "Ada") |} ];
     m_container_title := Some [py "Journal of Examples"];
     m_short_container_title := Some [py "J. Ex."];
     m_issued := Some {| date_parts := Some [[2019%Z; 5%Z]] |};
     m_title := Some [py "Notes on the engine"];
     m_volume := None;
     m_article_number := None;
     m_page := Some (py "101-110") |}.

Section vocabulary_of_services.
Context `{!Services}.

(** The look-up of one id by the fallback succeeds, or fails with the
    exception [e]: that of the service, or the [IndexError] of taking the
    first of no result. *)
Definition lookup_succeeds (id : str) : Prop :=
  ∃ x more, arxiv_query_str id = Returns (x :: more).


End vocabulary_of_services.

(** The ids that a trace submits to the document service, one entry per
    request. *)
Definition crossref_requests (t : list event) : list (list str) :=
  omap (λ e, match e with CrossrefWorks ids => Some ids | _ => None end) t.



(** Two records with a preprint id, as [__init__] makes them. *)
Definition two_preprints : list BibItem :=
  [ new_BibItem (py "arXiv:2303.01234") (Some (py "2303.01234")) None;
    new_BibItem (py "arXiv:0000.00000") (Some (py "0000.00000")) None ].

(** A computation that submits nothing to the document service. *)
Definition quiet {A} (m : M A) : Prop := crossref_requests m.1 = [].

(** An article with a volume, and the lines of two directives with the
    same document id, as [readlines] gives them. *)
Definition article_with_volume : cr_message :=
  {| m_type := Some (py "journal-article");
     m_author := Some [ {| family := Some (py "Lovelace");
                           given := Some (py "Ada") |} ];
     m_container_title := Some [py "Journal of Examples"];
     m_short_container_title := Some [py "J. Ex."];
     m_issued := Some {| date_parts := Some [[2019%Z; 5%Z]] |};
     m_title := Some [py "Notes on the engine"];
     m_volume := Some (py "7");
     m_article_number := None;
     m_page := Some (py "101-110") |}.

Definition two_directives_one_doi : list str :=
  [ py "doi:10.1/a [bibtex_id:first]" ++ [10];
    py "doi:10.1/a [bibtex_id:second]" ++ [10] ].

(** An entry of a citation database with a full journal reference, and
    look-ups that find nothing. *)
Definition example_entry : gmap str str :=
  list_to_map
    [ (py "ENTRYTYPE", py "article");
      (py "ID", py "lovelace1843");
      (py "title", py "Notes on the engine");
      (py "journal", py "Journal of Examples");
      (py "volume", py "7");
      (py "pages", py "101");
      (py "year", py "1843") ].

Definition no_match : bibextract.Lookups :=
  {| bibextract.crossref_find_from_journalref := λ _, None;
     bibextract.arxiv_find_from_doi := λ _, None |}.

(** Look-ups that find the article of the example under a document id,
    and no preprint for it. *)
Definition match_without_preprint : bibextract.Lookups :=
  {| bibextract.crossref_find_from_journalref := λ _,
       Some {| bibextract.match_title := Some [py "Notes on the Engine"];
               bibextract.match_DOI := Some (py "10.1/a") |};
     bibextract.arxiv_find_from_doi := λ _, None |}.

(** The lines that a trace prints on the output. *)
Definition printed_lines (t : list event) : list str :=
  omap (λ e, match e with Print line => Some line | _ => None end) t.

(** ** Vocabulary of the further properties *)

(** [sep.join(l)]. *)
Fixpoint join (sep : str) (l : list str) : str :=
  match l with
  | [] => []
  | [x] => x
  | x :: l' => x ++ sep ++ join sep l'
  end.


(** [BibItem.__eq__] and [BibItem.__ne__]. *)
Definition BibItem_eq (a b : BibItem) : bool :=
  bool_decide (canonical_id a = canonical_id b).

Definition BibItem_ne (a b : BibItem) : bool := negb (BibItem_eq a b).

(** Every object that the cache names is in the store. *)
Definition cache_in_heap (w : world) : Prop :=
  ∀ line r, cache w !! line = Some r → (r < length (heap w))%nat.

(** A character that is neither a bracket nor a backslash. *)
Definition plain_char (c : char) : bool :=
  negb (is_bracket c) && negb (is_backslash c).

Section vocabulary_of_settings.
Context `{!Settings}.


End vocabulary_of_settings.

(** A computation that, when it returns, has printed nothing and
    returns a value with the property [P]; and one that never returns. *)
Definition returns_silently {A} (m : M A) (P : A → Prop) : Prop :=
  ∀ t a, m = (t, Ok a) → t = [] ∧ P a.

Definition never_returns {A} (m : M A) : Prop :=
  ∀ t a, m ≠ (t, Ok a).

(** What the document resolver leaves of a record [b] in the record
    [b']: the data of the parser and of the preprint resolver untouched,
    and every field of the journal block assigned. *)
Definition document_populated_from (b b' : BibItem) : Prop :=
  canonical_id b' = canonical_id b
  ∧ arxivid b' = arxivid b
  ∧ doi b' = doi b
  ∧ bibtex_id b' = bibtex_id b
  ∧ abstract b' = abstract b
  ∧ comment b' = comment b
  ∧ arxiv_populated b' = arxiv_populated b
  ∧ suppress_volumewarning b' = suppress_volumewarning b
  ∧ origcase b' = origcase b
  ∧ extra_bibtex_fields b' = extra_bibtex_fields b
  ∧ doi_populated b' = true
  ∧ (∃ j, journal b' = Some j)
  ∧ (∃ l, detailed_authors b' = Some l)
  ∧ (∃ l, authors b' = present l)
  ∧ (∃ t, title b' = present t)
  ∧ (∃ js, journal_short b' = present js)
  ∧ (∃ y, year b' = present y)
  ∧ (∃ v, volume b' = present v)
  ∧ (∃ p, page b' = present p).

(** A response about a contribution to proceedings, and settings in
    which the journal of the examples is a bad journal. *)
Definition proceedings_article : cr_message :=
  {| m_type := Some (py "proceedings-article");
     m_author := None;
     m_container_title := None;
     m_short_container_title := None;
     m_issued := None;
     m_title := None;
     m_volume := None;
     m_article_number := None;
     m_page := None |}.


Section vocabulary_of_lines.
Context `{!Unicode}.

(** The characters of an identifier and of a key that the grammar of a
    line lets through unchanged, and what the round trip needs of the
    table of blanks. *)
Definition id_char (c : char) : bool := plain_char c && negb (isspace c).

Definition key_char (c : char) : bool :=
  id_char c && negb (c =? ch ",") && negb (c =? ch ":").

Definition blank_is_space : Prop :=
  isspace (ch " ") = true ∧ isspace (ch "b") = false
  ∧ isspace (ch ":") = false.

End vocabulary_of_lines.

(** A computation whose value, when it returns, has the property [P]. *)
Definition returns_with {A} (m : M A) (P : A → Prop) : Prop :=
  ∀ t a, m = (t, Ok a) → P a.

(** ** Lemmas on strings and effects *)

Lemma split_when_cons p s : ∃ w ws, split_when p s = w :: ws.
Proof.
  destruct s as [|c s]; simpl; [by eauto|].
  destruct (p c); [by eauto|].
  destruct (split_when p s); by eauto.
Qed.

Lemma split_when_none p s :
  Forall (λ c, p c = false) s → split_when p s = [s].
Proof.
  induction 1 as [|c s Hc _ IH]; simpl; [done|].
  by rewrite Hc, IH.
Qed.

Lemma split_when_app p a c r :
  Forall (λ x, p x = false) a → p c = true →
  split_when p (a ++ c :: r) = a :: split_when p r.
Proof.
  intros Ha Hc. induction Ha as [|x a Hx _ IH]; simpl.
  - by rewrite Hc.
  - by rewrite Hx, IH.
Qed.

Lemma split_when_segment p seg tail :
  Forall (λ x, p x = false) seg →
  (tail = [] ∨ ∃ c t, tail = c :: t ∧ p c = true) →
  head (split_when p (seg ++ tail)) = Some seg.
Proof.
  intros Hseg [->|(c & t & -> & Hc)].
  - by rewrite app_nil_r, split_when_none.
  - by rewrite split_when_app.
Qed.

Lemma contains_true c s : c ∈ s → contains c s = true.
Proof.
  intros Hin. unfold contains. apply existsb_exists.
  exists c. split; [by apply list_elem_of_In | apply N.eqb_refl].
Qed.

Lemma contains_false c s : c ∉ s → contains c s = false.
Proof.
  intros Hnin. unfold contains.
  destruct (existsb (N.eqb c) s) eqn:E; [|done].
  apply existsb_exists in E as (x & Hx & Heq).
  apply N.eqb_eq in Heq as <-. by apply list_elem_of_In in Hx.
Qed.

Lemma not_elem_of_eqb (c : char) (s : str) :
  c ∉ s → Forall (λ x, N.eqb c x = false) s.
Proof.
  intros Hnin. apply Forall_forall. intros x Hx.
  apply N.eqb_neq. intros ->. done.
Qed.

Lemma bind_lift_ok {A B} (a : A) (f : A → M B) : lift (Ok a) ≫= f = f a.
Proof. unfold lift. cbn. by destruct (f a). Qed.

Lemma bind_trace_ok {A B} (t : list event) (a : A) (f : A → M B) :
  (t, Ok a) ≫= f = (t ++ (f a).1, (f a).2).
Proof. cbn. by destruct (f a). Qed.

Lemma bind_raised {A B} (t : list event) (e : exn) (f : A → M B) :
  (t, Raise e) ≫= f = (t, Raise e).
Proof. done. Qed.

Lemma bind_emit {B} (e : event) (f : unit → M B) :
  emit e ≫= f = (e :: (f tt).1, (f tt).2).
Proof. unfold emit. by rewrite bind_trace_ok. Qed.

(** ** Construction of a record *)

(** C10. A record made with a preprint id, with or without a document id,
    has the canonical id ['arXiv:'] followed by the preprint id, and this
    is not ['doi:'] followed by anything; a record made with a document
    id alone has the canonical id ['doi:'] followed by it; with neither
    id the construction raises [ValueError]. Hence, whenever a record is
    made, its canonical id is of the ['doi:'] form exactly when no
    preprint id was given, and the two ids are stored as given. *)
Theorem canonical_id_of_new_record :
  (∀ a d, ∃ b, BibItem_init (Some a) d = Ok b
               ∧ canonical_id b = py "arXiv:" ++ a
               ∧ (∀ x, canonical_id b ≠ py "doi:" ++ x))
  ∧ (∀ d, ∃ b, BibItem_init None (Some d) = Ok b
               ∧ canonical_id b = py "doi:" ++ d)
  ∧ BibItem_init None None
    = Raise (ValueError (py "Need to specify either arXiv ID or DOI!"))
  ∧ (∀ a d b, BibItem_init a d = Ok b →
       ((∃ x, canonical_id b = py "doi:" ++ x) ↔ a = None)
       ∧ arxivid b = a ∧ doi b = d).
Proof.
  assert (∀ a x : str, py "arXiv:" ++ a ≠ py "doi:" ++ x) as Hforms.
  { intros a x Heq. by vm_compute in Heq. }
  split; [|split; [|split]].
  - intros a d. exists (new_BibItem (py "arXiv:" ++ a) (Some a) d).
    split; [by destruct d|]. split; [done|]. intros x. apply Hforms.
  - intros d. by exists (new_BibItem (py "doi:" ++ d) None (Some d)).
  - done.
  - intros [a|] [d|] b Hb; simplify_eq/=; (split; [|done]).
    + split; [|done]. intros [x Hx]. by apply Hforms in Hx.
    + split; [|done]. intros [x Hx]. by apply Hforms in Hx.
    + split; [done|]. intros _. by exists d.
Qed.

Lemma canonical_id_of_new_record_example :
  ∃ b, BibItem_init (Some (py "2303.01234")) (Some (py "10.1/a")) = Ok b
       ∧ canonical_id b = py "arXiv:2303.01234"
       ∧ ¬ (∃ x, canonical_id b = py "doi:" ++ x)
       ∧ arxivid b = Some (py "2303.01234")
       ∧ doi b = Some (py "10.1/a").
Proof.
  destruct (proj1 canonical_id_of_new_record (py "2303.01234")
              (Some (py "10.1/a"))) as (b & Hb & Hid & _).
  exists b. split; [done|]. split; [done|].
  destruct (proj2 (proj2 (proj2 canonical_id_of_new_record)) _ _ _ Hb)
    as (Hform & Ha & Hd).
  split; [|done]. intros Hdoi. by apply Hform in Hdoi.
Defined.

(** ** Citation keys *)

Section keys.
Context `{!Unicode}.

Lemma strip_nonalphabetic_sublist name :
  strip_nonalphabetic name `sublist_of` name.
Proof.
  induction name as [|c name IH]; [constructor|].
  unfold strip_nonalphabetic in *. cbn [List.filter].
  destruct (isalpha c); by constructor.
Qed.

Lemma strip_nonalphabetic_alphabetic name :
  Forall (λ c, isalpha c = true) (strip_nonalphabetic name).
Proof.
  induction name as [|c name IH]; [constructor|].
  unfold strip_nonalphabetic in *. cbn [List.filter].
  destruct (isalpha c) eqn:Hc; [by constructor|done].
Qed.

Lemma strip_nonalphabetic_greatest name l :
  l `sublist_of` name → Forall (λ c, isalpha c = true) l →
  l `sublist_of` strip_nonalphabetic name.
Proof.
  unfold strip_nonalphabetic.
  induction 1 as [|c l name _ IH|c l name _ IH]; intros Hl.
  - constructor.
  - apply Forall_cons in Hl as [Hc Hl]. cbn [List.filter]. rewrite Hc.
    constructor. by apply IH.
  - cbn [List.filter]. destruct (isalpha c); [constructor|]; by apply IH.
Qed.

(** The name has one alphabetic form, which is what
    [strip_nonalphabetic] returns. *)
Lemma alphabetic_form_strip name : alphabetic_form name (strip_nonalphabetic name).
Proof.
  split; [apply strip_nonalphabetic_sublist|].
  split; [apply strip_nonalphabetic_alphabetic|].
  apply strip_nonalphabetic_greatest.
Qed.

Lemma alphabetic_form_unique name letters :
  alphabetic_form name letters → letters = strip_nonalphabetic name.
Proof.
  intros (Hsub & Halpha & Hmax). apply (anti_symm sublist).
  - by apply strip_nonalphabetic_greatest.
  - apply Hmax;
      [apply strip_nonalphabetic_sublist|apply strip_nonalphabetic_alphabetic].
Qed.

(** C6. Every name has an alphabetic form: its alphabetic characters in
    their order. The key is the transliteration of that form, an
    underscore and a stamp. For an id with a slash the stamp is made of
    the first four characters of the component after the first slash,
    and has four characters when that component has at least four; for
    an id without a slash whose part before the first dot has four
    characters, the stamp is that part. *)
Theorem bibtexid_from_arxivid (name : str) :
  ∃ letters,
    alphabetic_form name letters
    ∧ (∀ archive seg tail,
         ch "/" ∉ archive → ch "/" ∉ seg →
         (tail = [] ∨ ∃ t, tail = ch "/" :: t) →
         make_bibtexid_from_arxivid name (archive ++ ch "/" :: seg ++ tail)
         = Ok (unidecode letters ++ py "_" ++ take 4 seg)
         ∧ (4 ≤ length seg → length (take 4 seg) = 4)%nat)
    ∧ (∀ yymm rest,
         ch "/" ∉ yymm ++ rest → ch "." ∉ yymm →
         (rest = [] ∨ ∃ t, rest = ch "." :: t) →
         length yymm = 4%nat →
         make_bibtexid_from_arxivid name (yymm ++ rest)
         = Ok (unidecode letters ++ py "_" ++ yymm)).
Proof.
  exists (strip_nonalphabetic name). split; [apply alphabetic_form_strip|].
  split.
  - intros archive seg tail Ha Hs Ht. split; [|intros; rewrite length_take; lia].
    unfold make_bibtexid_from_arxivid.
    rewrite contains_true by (apply elem_of_app; right; left).
    unfold split_on. rewrite split_when_app by (by apply not_elem_of_eqb || done).
    assert (head (split_when (N.eqb (ch "/")) (seg ++ tail)) = Some seg) as Hhd.
    { apply split_when_segment; [by apply not_elem_of_eqb|].
      destruct Ht as [->|[t ->]]; [by left|right]. by exists (ch "/"), t. }
    destruct (split_when _ (seg ++ tail)) as [|w ws]; [done|].
    simpl in Hhd. by simplify_eq.
  - intros yymm rest Hslash Hdot Hrest Hlen.
    unfold make_bibtexid_from_arxivid.
    rewrite contains_false by done.
    assert (head (split_on (ch ".") (yymm ++ rest)) = Some yymm) as Hhd.
    { apply split_when_segment; [by apply not_elem_of_eqb|].
      destruct Hrest as [->|[t ->]]; [by left|right]. by exists (ch "."), t. }
    destruct (split_on _ (yymm ++ rest)) as [|w ws]; [done|].
    simpl in Hhd. simplify_eq. simpl.
    by rewrite bool_decide_true.
Qed.

End keys.

(** The two keys of the specification: Müller with 2303.01234, and a
    legacy id, here with a name that has an apostrophe and a blank. The
    alphabetic forms are [Müller] and [tHooft]. *)
Lemma bibtexid_from_arxivid_examples :
  @make_bibtexid_from_arxivid example_tables
    (py "M" ++ [252] ++ py "ller") (py "2303.01234")
  = Ok (py "Muller_2303")
  ∧ @make_bibtexid_from_arxivid example_tables
      (py "'t Hooft") (py "hep-th/9901001")
    = Ok (py "tHooft_9901").
Proof.
  split.
  - destruct (@bibtexid_from_arxivid example_tables
                (py "M" ++ [252] ++ py "ller"))
      as (letters & (Hsub & _ & Hmax) & _ & Hmodern).
    assert (letters = py "M" ++ [252] ++ py "ller") as ->.
    { apply (anti_symm sublist); [done|].
      apply Hmax; [done|]. by vm_compute; repeat constructor. }
    exact (Hmodern (py "2303") (py ".01234")
             ltac:(compute_done) ltac:(compute_done)
             (or_intror (ex_intro _ (py "01234") eq_refl)) eq_refl).
  - destruct (@bibtexid_from_arxivid example_tables (py "'t Hooft"))
      as (letters & (Hsub & Halpha & Hmax) & Hlegacy & _).
    assert (letters = py "tHooft") as ->.
    { apply (anti_symm sublist).
      - pose proof (@strip_nonalphabetic_greatest example_tables _ _ Hsub Halpha)
          as Hless.
        exact Hless.
      - apply Hmax; [|by vm_compute; repeat constructor].
        vm_compute. by repeat constructor. }
    exact (proj1 (Hlegacy (py "hep-th") (py "9901001") []
                    ltac:(compute_done) ltac:(compute_done)
                    (or_introl eq_refl))).
Defined.

(** ** The directive parser *)

Section parser_facts.
Context `{!Unicode} `{!Settings}.

Lemma process_opt_eq st opt :
  process_opt st opt
  = match option_key opt, option_value opt with
    | Some key, Some value => apply_option st key value
    | _, _ => Raise IndexError
    end.
Proof.
  unfold process_opt, option_key, option_value, index.
  destruct (split_on _ _ !! 0%nat); simpl; [|done].
  by destruct (split_on _ _ !! 1%nat).
Qed.

Lemma apply_option_unknown st key value :
  key ∉ recognized_keys →
  apply_option st key value
  = Raise (RuntimeError (py "Invalid option name: '" ++ key ++ py "'")).
Proof.
  unfold recognized_keys. intros Hkey.
  apply not_elem_of_app in Hkey as [Hfixed Hextra].
  repeat (apply not_elem_of_cons in Hfixed as [? Hfixed]).
  unfold apply_option. by rewrite !bool_decide_false.
Qed.

Lemma apply_option_doi_twice st value :
  is_Some (p_doi st) →
  apply_option st (py "doi") value
  = Raise (RuntimeError (py "Specified DOI twice.")).
Proof.
  intros [d Hd]. unfold apply_option.
  by rewrite bool_decide_true, Hd.
Qed.

Lemma apply_option_keeps_doi st key value st' :
  apply_option st key value = Ok st' →
  is_Some (p_doi st) → is_Some (p_doi st').
Proof.
  unfold apply_option. intros Hst Hdoi.
  repeat case_bool_decide; destruct (p_doi st) eqn:E;
    simplify_eq; simpl; try done; by rewrite ?E.
Qed.

Lemma process_opts_keeps_doi opts : ∀ st st',
  process_opts st opts = Ok st' →
  is_Some (p_doi st) → is_Some (p_doi st').
Proof.
  induction opts as [|opt opts IH]; simpl; intros st st' Hst Hdoi.
  - by simplify_eq.
  - destruct (process_opt st opt) as [st1|e] eqn:E; simpl in Hst; [|done].
    apply (IH st1); [done|].
    rewrite process_opt_eq in E.
    destruct (option_key opt), (option_value opt); try done.
    by eapply apply_option_keeps_doi.
Qed.

Lemma process_opts_app st l1 l2 :
  process_opts st (l1 ++ l2) = process_opts st l1 ≫= λ st', process_opts st' l2.
Proof.
  revert st. induction l1 as [|opt l1 IH]; simpl; intros st; [done|].
  destruct (process_opt st opt); simpl; [apply IH|done].
Qed.

(** An option that raises in every state makes the loop raise. *)
Lemma process_opts_raises st before opt after :
  (∀ st', ∃ e, process_opt st' opt = Raise e) →
  ∃ e, process_opts st (before ++ opt :: after) = Raise e.
Proof.
  intros Hopt. rewrite process_opts_app.
  destruct (process_opts st before) as [st'|e]; simpl; [|by eauto].
  destruct (Hopt st') as [e ->]. by eauto.
Qed.

Lemma init_from_input_file_line_miss (w : world) line :
  cache w !! line = None →
  init_from_input_file_line w line
  = parse_line line ≫= λ bibitem,
      Ok (length (heap w),
          {| heap := heap w ++ [bibitem];
             cache := <[line := length (heap w)]> (cache w) |}).
Proof. intros Hmiss. unfold init_from_input_file_line. by rewrite Hmiss. Qed.

(** C7. On a line that is not in the cache, an option whose key has no
    branch in the loop makes the parser raise, and so does an option
    [doi] after an identifier of the form [doi:...]. The exception is the
    [RuntimeError] of that option when the options before it are accepted
    and the option has a value. *)
Theorem parser_rejects_option (w : world) (line : str)
    (before after : list str) (opt key : str) :
  cache w !! line = None →
  options_of line = before ++ opt :: after →
  option_key opt = Some key →
  (key ∉ recognized_keys →
   ∃ e, parse_line line = Raise e
        ∧ init_from_input_file_line w line = Raise e
        ∧ ∀ st value,
            process_opts (initial_state (main_of line)) before = Ok st →
            option_value opt = Some value →
            e = RuntimeError (py "Invalid option name: '" ++ key ++ py "'"))
  ∧ (key = py "doi" → take 4 (main_of line) = py "doi:" →
     ∃ e, parse_line line = Raise e
          ∧ init_from_input_file_line w line = Raise e
          ∧ ∀ st value,
              process_opts (initial_state (main_of line)) before = Ok st →
              option_value opt = Some value →
              e = RuntimeError (py "Specified DOI twice.")).
Proof.
  intros Hmiss Hopts Hkey.
  rewrite (init_from_input_file_line_miss _ _ Hmiss).
  unfold parse_line. rewrite Hopts, process_opts_app. split.
  - intros Hunknown.
    destruct (process_opts _ before) as [st|e]; simpl.
    + rewrite process_opt_eq, Hkey.
      destruct (option_value opt) as [value|]; simpl.
      * rewrite apply_option_unknown by done. simpl.
        eexists. split; [done|]. split; [done|]. by intros.
      * eexists. split; [done|]. split; [done|]. by intros.
    + eexists. split; [done|]. split; [done|]. by intros.
  - intros -> Hmain.
    destruct (process_opts _ before) as [st|e] eqn:E; simpl.
    + assert (is_Some (p_doi st)) as Hdoi.
      { eapply process_opts_keeps_doi; [done|].
        unfold initial_state, main_doi; simpl.
        by rewrite bool_decide_true. }
      rewrite process_opt_eq, Hkey.
      destruct (option_value opt) as [value|]; simpl.
      * rewrite apply_option_doi_twice by done. simpl.
        eexists. split; [done|]. split; [done|]. by intros.
      * eexists. split; [done|]. split; [done|]. by intros.
    + eexists. split; [done|]. split; [done|]. by intros.
Qed.

End parser_facts.

Lemma parser_rejects_option_examples :
  @parse_line example_tables (example_settings [])
    (py "2303.01234 [colour:red]")
  = Raise (RuntimeError (py "Invalid option name: 'colour'"))
  ∧ @parse_line example_tables (example_settings [])
      (py "doi:10.1/a [doi:10.1/b]")
    = Raise (RuntimeError (py "Specified DOI twice.")).
Proof.
  split.
  - destruct (proj1 (@parser_rejects_option example_tables (example_settings [])
                       empty_world (py "2303.01234 [colour:red]")
                       [] [] (py "colour:red") (py "colour")
                       eq_refl ltac:(by vm_compute) ltac:(by vm_compute))
                ltac:(compute_done))
      as (e & Hparse & _ & He).
    rewrite Hparse. f_equal.
    by apply (He (initial_state (py "2303.01234")) (py "red")); vm_compute.
  - destruct (proj2 (@parser_rejects_option example_tables (example_settings [])
                       empty_world (py "doi:10.1/a [doi:10.1/b]")
                       [] [] (py "doi:10.1/b") (py "doi")
                       eq_refl ltac:(by vm_compute) ltac:(by vm_compute))
                eq_refl ltac:(by vm_compute))
      as (e & Hparse & _ & He).
    rewrite Hparse. f_equal.
    by apply (He (initial_state (py "doi:10.1/a")) (py "10.1/b")); vm_compute.
Defined.

Section case_policy_option.
Context `{!Unicode} `{!Settings}.

Lemma apply_option_origcase_invalid st value :
  value ∉ [py "yes"; py "no"; py "auto"] →
  apply_option st (py "origcase") value = Ok st.
Proof.
  intros Hvalue. repeat (apply not_elem_of_cons in Hvalue as [? Hvalue]).
  unfold apply_option.
  rewrite (bool_decide_false (py "origcase" = py "doi")) by done.
  rewrite (bool_decide_false (py "origcase" = py "bibtex_id")) by done.
  rewrite (bool_decide_false (py "origcase" = _)) by done.
  rewrite (bool_decide_false (py "origcase" = py "comment")) by done.
  rewrite (bool_decide_true (py "origcase" = py "origcase")) by done.
  by rewrite !bool_decide_false.
Qed.

Lemma apply_option_suppress_invalid st value :
  value ∉ [py "yes"; py "no"] →
  apply_option st (py "suppress_volumewarning") value
  = Raise (RuntimeError (py "Invalid value: '" ++ value ++ py "'")).
Proof.
  intros Hvalue. repeat (apply not_elem_of_cons in Hvalue as [? Hvalue]).
  unfold apply_option.
  rewrite (bool_decide_false (_ = py "doi")) by done.
  rewrite (bool_decide_false (_ = py "bibtex_id")) by done.
  rewrite (bool_decide_true (py "suppress_volumewarning" = _)) by done.
  by rewrite !bool_decide_false.
Qed.

Lemma build_bibitem_ok main st :
  (main_arxivid main = None → is_Some (p_doi st)) →
  ∃ b, build_bibitem main st = Ok b ∧ origcase b = present (p_origcase st).
Proof.
  intros Hdoi. unfold build_bibitem, BibItem_init.
  destruct (main_arxivid main) as [a|]; simpl; [by eauto|].
  destruct Hdoi as [d ->]; [done|]. simpl. by eauto.
Qed.

(** C9. An option [origcase] whose value is none of [yes], [no] and
    [auto] raises nothing and changes nothing: the loop goes on as if the
    option were not there. A line that has such an option therefore
    parses as the line without it does, to the same record or with the
    same exception: the case policy is the one that the other options
    leave, and it is [None], the automatic one, for a line with this one
    option. An option [suppress_volumewarning] whose value is neither
    [yes] nor [no] raises [RuntimeError], and the parse of a line that
    has one raises. *)
Theorem invalid_case_policy_is_ignored (opt value : str) :
  option_key opt = Some (py "origcase") →
  option_value opt = Some value →
  value ∉ [py "yes"; py "no"; py "auto"] →
  (∀ st, process_opt st opt = Ok st)
  ∧ (∀ st before after,
       process_opts st (before ++ opt :: after)
       = process_opts st (before ++ after))
  ∧ (∀ line line' before after,
       main_of line = main_of line' →
       options_of line = before ++ opt :: after →
       options_of line' = before ++ after →
       parse_line line = parse_line line')
  ∧ (∀ (w : world) line,
       cache w !! line = None → options_of line = [opt] →
       ∃ b, parse_line line = Ok b
            ∧ origcase b = present None
            ∧ init_from_input_file_line w line
              = Ok (length (heap w),
                    {| heap := heap w ++ [b];
                       cache := <[line := length (heap w)]> (cache w) |}))
  ∧ (∀ opt' value',
       option_key opt' = Some (py "suppress_volumewarning") →
       option_value opt' = Some value' →
       value' ∉ [py "yes"; py "no"] →
       (∀ st, process_opt st opt'
              = Raise (RuntimeError (py "Invalid value: '" ++ value' ++ py "'")))
       ∧ ∀ (w : world) line before after,
           cache w !! line = None →
           options_of line = before ++ opt' :: after →
           ∃ e, parse_line line = Raise e
                ∧ init_from_input_file_line w line = Raise e).
Proof.
  intros Hkey Hvalue Hinvalid.
  assert (∀ st, process_opt st opt = Ok st) as Hskip.
  { intros st. rewrite process_opt_eq, Hkey, Hvalue.
    by apply apply_option_origcase_invalid. }
  assert (∀ st before after,
            process_opts st (before ++ opt :: after)
            = process_opts st (before ++ after)) as Hloop.
  { intros st before after. rewrite !process_opts_app. simpl.
    destruct (process_opts st before) as [st'|e]; simpl; [|done].
    by rewrite Hskip. }
  split; [done|]. split; [done|]. split; [|split].
  - intros line line' before after Hmain Hopts Hopts'.
    unfold parse_line. by rewrite Hopts, Hopts', Hmain, Hloop.
  - intros w line Hmiss Hopts.
    rewrite (init_from_input_file_line_miss _ _ Hmiss).
    unfold parse_line. rewrite Hopts. simpl. rewrite Hskip. simpl.
    destruct (build_bibitem_ok (main_of line) (initial_state (main_of line)))
      as (b & -> & Hpolicy).
    { unfold main_arxivid, initial_state, main_doi. simpl.
      by case_bool_decide. }
    by exists b.
  - intros opt' value' Hkey' Hvalue' Hinvalid'.
    assert (∀ st, process_opt st opt'
                  = Raise (RuntimeError (py "Invalid value: '" ++ value' ++ py "'")))
      as Hraise.
    { intros st. rewrite process_opt_eq, Hkey', Hvalue'.
      by apply apply_option_suppress_invalid. }
    split; [done|].
    intros w line before after Hmiss Hopts.
    rewrite (init_from_input_file_line_miss _ _ Hmiss).
    unfold parse_line. rewrite Hopts.
    destruct (process_opts_raises (initial_state (main_of line))
                before opt' after) as [e ->]; [by eauto|].
    by exists e.
Qed.

End case_policy_option.

(** The counterexample to the claim as the specification has it: after
    [origcase:yes] an option [origcase:maybe] leaves the policy [True],
    where [origcase:auto] puts it back to [None]. *)
Lemma case_policy_reset_counterexample :
  match @parse_line example_tables (example_settings [])
          (py "2303.01234 [origcase:yes, origcase:maybe]"),
        @parse_line example_tables (example_settings [])
          (py "2303.01234 [origcase:yes, origcase:auto]") with
  | Ok b, Ok b' =>
      origcase b = present (Some true) ∧ origcase b' = present None
  | _, _ => False
  end.
Proof. vm_compute. by split. Qed.

Lemma invalid_case_policy_example :
  (∃ b, @parse_line example_tables (example_settings [])
          (py "2303.01234 [origcase:maybe]") = Ok b
        ∧ origcase b = present None)
  ∧ @parse_line example_tables (example_settings [])
      (py "2303.01234 [origcase:yes, origcase:maybe, note:x]")
    = @parse_line example_tables (example_settings [])
        (py "2303.01234 [origcase:yes, note:x]")
  ∧ @process_opt example_tables (example_settings [])
      (initial_state (py "2303.01234")) (py "suppress_volumewarning:maybe")
    = Raise (RuntimeError (py "Invalid value: 'maybe'")).
Proof.
  pose proof (@invalid_case_policy_is_ignored example_tables
                (example_settings []) (py "origcase:maybe") (py "maybe")
                ltac:(by vm_compute) ltac:(by vm_compute) ltac:(compute_done))
    as (_ & _ & _ & Hline & Hsuppress).
  pose proof (@invalid_case_policy_is_ignored example_tables
                (example_settings []) (py " origcase:maybe") (py "maybe")
                ltac:(by vm_compute) ltac:(by vm_compute) ltac:(compute_done))
    as (_ & _ & Hsame & _).
  split; [|split].
  - destruct (Hline empty_world (py "2303.01234 [origcase:maybe]")
                eq_refl ltac:(by vm_compute)) as (b & Hb & Hpolicy & _).
    by exists b.
  - apply (Hsame _ _ [py "origcase:yes"] [py " note:x"]); by vm_compute.
  - apply (Hsuppress (py "suppress_volumewarning:maybe") (py "maybe"));
      [by vm_compute..|compute_done].
Defined.

(** ** The title under the automatic case policy *)

Section title_facts.
Context `{!Unicode} `{!Settings}.

Lemma split_ws_nonempty t : Forall (λ w, w ≠ []) (split_ws t).
Proof.
  apply Forall_forall. intros w Hw.
  apply list_elem_of_In, filter_In in Hw as [_ Hw]. by destruct w.
Qed.

Lemma count_capitalized_words ws :
  Forall (λ w, w ≠ []) ws →
  count_capitalized ws = Ok (length (List.filter capitalized ws)).
Proof.
  induction 1 as [|w ws Hw _ IH]; simpl; [done|].
  destruct w as [|c w]; [done|]. simpl. rewrite IH. simpl.
  by destruct (isupper c).
Qed.

Lemma origcase_heuristic_eq t :
  origcase_heuristic t
  = if bool_decide (split_ws t = []) then Raise ZeroDivisionError
    else Ok (negb (bool_decide
                     (length (split_ws t)
                      < 2 * length (List.filter capitalized (split_ws t)))%nat)).
Proof.
  unfold origcase_heuristic.
  rewrite count_capitalized_words by apply split_ws_nonempty. simpl.
  destruct (split_ws t) as [|w ws] eqn:E; [done|].
  rewrite (bool_decide_false (_ :: _ = [])) by done.
  rewrite (bool_decide_false (length (w :: ws) = 0%nat)) by done.
  by case_bool_decide.
Qed.

Lemma re_split_W_concat t : concat (re_split_W t) = t.
Proof.
  induction t as [|c t IH]; simpl; [done|].
  destruct (isword c); simpl; [|by rewrite IH].
  destruct (re_split_W t) as [|w ws]; simpl in *; by rewrite <- IH.
Qed.

Lemma protect_word_eq word :
  protect_word word
  = if capitalized word && bool_decide (word ∈ protected_words)
    then py "{" ++ word ++ py "}" else word.
Proof. by destruct word. Qed.

(** C1, as the program has it. Under the automatic policy (the attribute
    [origcase] missing or [None]) and for a title with at least one word:
    when strictly more than half of the words separated by whitespace are
    capitalized, the title is split at its non-word characters and the
    pieces that are capitalized and belong to the list of protected words
    are wrapped in braces one by one, the other pieces being left as they
    are; otherwise the whole title is wrapped as one braced unit. *)
Theorem title_under_automatic_policy (b : BibItem) (t : str) :
  title b = present t →
  origcase b = absent ∨ origcase b = present None →
  split_ws t ≠ [] →
  output_title b
  = (if bool_decide (length (split_ws t)
                     < 2 * length (List.filter capitalized (split_ws t)))%nat
     then ([PrintErrList (re_split_W t);
            Print (py "  title={" ++ concat (protect_word <$> re_split_W t)
                   ++ py "},")], Ok tt)
     else ([Print (py "  title={{" ++ t ++ py "}},")], Ok tt))
  ∧ (∀ word, protect_word word
             = if capitalized word && bool_decide (word ∈ protected_words)
               then py "{" ++ word ++ py "}" else word)
  ∧ concat (re_split_W t) = t
  ∧ ∀ eprint_published before,
      (output_opening b eprint_published;; output_journal b;; output_doi b)
      = (before, Ok tt) →
      (output_bib b eprint_published).1
      = before ++ (output_title b).1 ++ (output_closing b).1.
Proof.
  intros Ht Hpolicy Hwords.
  assert (output_title b
          = (if bool_decide (length (split_ws t)
                             < 2 * length (List.filter capitalized (split_ws t)))%nat
             then ([PrintErrList (re_split_W t);
                    Print (py "  title={" ++ concat (protect_word <$> re_split_W t)
                           ++ py "},")], Ok tt)
             else ([Print (py "  title={{" ++ t ++ py "}},")], Ok tt)))
    as Htitle.
  { unfold output_title. rewrite Ht.
    assert (match origcase b with present v => v | absent => None end = None)
      as -> by (by destruct Hpolicy as [-> | ->]).
    cbn -[Nat.mul]. rewrite origcase_heuristic_eq.
    rewrite bool_decide_false by done.
    by case_bool_decide. }
  split; [done|split; [apply protect_word_eq|split; [apply re_split_W_concat|]]].
  intros ep before Hbefore. unfold output_bib.
  destruct (output_opening b ep) as [t1 [[]|e1]]; cbn in *; [|done].
  destruct (output_journal b) as [t2 [[]|e2]]; cbn in *; [|done].
  destruct (output_doi b) as [t3 [[]|e3]]; cbn in *; [|done].
  simplify_eq. rewrite Htitle.
  destruct (output_closing b) as [t5 r5].
  case_bool_decide; cbn; by rewrite <- !app_assoc.
Qed.

End title_facts.

(** The counterexample to the claim as the specification has it: the
    five words of the title are all capitalized, and the program, run as
    [imbibe --arxiv 2303.01234], prints the title in single braces with
    no word protected; the title wrapped as one braced unit is not
    printed. *)
Lemma whole_title_wrap_counterexample :
  let t := py "The Quick Brown Fox Jumps" in
  let run := @main_arxiv example_tables (example_settings [])
               (example_services t) (py "2303.01234") true in
  length (@split_ws example_tables t) = 5%nat
  ∧ length (List.filter (@capitalized example_tables)
              (@split_ws example_tables t)) = 5%nat
  ∧ run = ([ArxivQuery [py "2303.01234"] 1;
            Print (py "@article{Lovelace_2303,");
            Print (py "  abstract={An abstract.},");
            Print (py "  archiveprefix={arXiv},");
            Print (py "  eprint={2303.01234},");
            PrintErrList [py "The"; py " "; py "Quick"; py " "; py "Brown";
                          py " "; py "Fox"; py " "; py "Jumps"];
            Print (py "  title={The Quick Brown Fox Jumps},");
            Print (py "  author={Ada Lovelace}");
            Print (py "}");
            Print (py "")], Ok tt)
  ∧ Print (py "  title={{The Quick Brown Fox Jumps}},") ∉ run.1.
Proof.
  cbv zeta. split; [vm_compute; reflexivity|].
  split; [vm_compute; reflexivity|].
  match goal with
  | |- ?run = ?trace ∧ _ =>
      assert (run = trace) as E by (vm_compute; reflexivity)
  end.
  split; [exact E|]. rewrite E. cbn [fst]. intros Hin.
  repeat (apply elem_of_cons in Hin as [Heq|Hin];
          [vm_compute in Heq; discriminate Heq|]).
  by apply elem_of_nil in Hin.
Qed.

Lemma title_under_automatic_policy_examples :
  @output_title example_tables (example_settings [py "Quantum"])
    (example_record (py "A Study of Quantum Effects"))
  = ([PrintErrList [py "A"; py " "; py "Study"; py " "; py "of"; py " ";
                    py "Quantum"; py " "; py "Effects"];
      Print (py "  title={A Study of {Quantum} Effects},")], Ok tt)
  ∧ @output_title example_tables (example_settings [py "Quantum"])
      (example_record (py "A study of Quantum effects"))
    = ([Print (py "  title={{A study of Quantum effects}},")], Ok tt).
Proof.
  split.
  - rewrite (proj1 (@title_under_automatic_policy example_tables
                      (example_settings [py "Quantum"])
                      (example_record (py "A Study of Quantum Effects"))
                      (py "A Study of Quantum Effects")
                      eq_refl (or_introl eq_refl) ltac:(by vm_compute))).
    by vm_compute.
  - rewrite (proj1 (@title_under_automatic_policy example_tables
                      (example_settings [py "Quantum"])
                      (example_record (py "A study of Quantum effects"))
                      (py "A study of Quantum effects")
                      eq_refl (or_introl eq_refl) ltac:(by vm_compute))).
    by vm_compute.
Defined.

(** ** The journal block of a record without volume *)

Section volume_facts.
Context `{!Unicode} `{!Settings}.

(** For a record that carries the attribute [suppress_volumewarning], as
    every record made by the parser does, and whose document data has no
    volume: the journal block is the three lines of the journal, the
    pages and the year; it is followed by one warning of two lines when
    the attribute is false and by nothing when it is true. *)
Lemma journal_block_without_volume (b : BibItem) j js p y t suppress :
  journal b = Some j →
  journal_short b = present js →
  page b = present p →
  year b = present y →
  volume b = present None →
  title b = present t →
  suppress_volumewarning b = present suppress →
  output_journal b
  = ([Print (py "  journal={" ++ js ++ py "},");
      Print (py "  pages={" ++ p ++ py "},");
      Print (py "  year={" ++ py (pretty y) ++ py "},")]
     ++ (if suppress then []
         else [PrintErr (py "WARNING: No volume in CrossRef data for paper:");
               PrintErr (py "   " ++ t)]),
     Ok tt)
  ∧ length (warnings (output_journal b).1) = (if suppress then 0 else 1)%nat.
Proof.
  intros Hj Hjs Hp Hy Hv Ht Hs.
  assert (output_journal b
          = ([Print (py "  journal={" ++ js ++ py "},");
              Print (py "  pages={" ++ p ++ py "},");
              Print (py "  year={" ++ py (pretty y) ++ py "},")]
             ++ (if suppress then []
                 else [PrintErr (py "WARNING: No volume in CrossRef data for paper:");
                       PrintErr (py "   " ++ t)]),
             Ok tt)) as E.
  { unfold output_journal. rewrite Hj, Hjs, Hp, Hy, Hv, Hs, Ht.
    by destruct suppress. }
  split; [done|]. rewrite E.
  destruct suppress; [done|]. cbn [fst app warnings List.filter is_warning].
  rewrite bool_decide_true by (by vm_compute).
  by rewrite bool_decide_false by (by vm_compute).
Qed.

(** A parsed record always carries the attribute. *)
Lemma parsed_record_has_suppress_volumewarning line b :
  parse_line line = Ok b →
  ∃ suppress, suppress_volumewarning b = present suppress.
Proof.
  unfold parse_line, build_bibitem. intros Hparse.
  destruct (process_opts _ _) as [st|]; simpl in Hparse; [|done].
  destruct (BibItem_init _ _); simpl in Hparse; [|done].
  simplify_eq. by eexists.
Qed.

End volume_facts.

(** C8, where the program departs from it. [imbibe --doi 10.1000/xyz],
    for an article of which the document service knows no volume: the
    record is made by [__init__] alone, which does not assign
    [suppress_volumewarning], and the formatter raises [AttributeError]
    after the line of the year; no warning is printed and the entry is
    left unfinished. *)
Lemma volume_warning_without_directive :
  @main_doi_argument example_tables (example_settings [])
    (example_document_services article_without_volume) (py "10.1000/xyz") true
  = ([CrossrefWorks [py "10.1000/xyz"];
      Print (py "@article{ARTICLE,");
      Print (py "  journal={J. Ex.},");
      Print (py "  pages={101},");
      Print (py "  year={2019},")],
     Raise (AttributeError "suppress_volumewarning")).
Proof. vm_compute. reflexivity. Qed.

(** ** The preprint resolver *)

Section preprint_facts.
Context `{!Unicode} `{!Settings} `{!Services}.

(** C4. When the record has a document id and the response of the
    preprint service carries a different one, the record keeps its own
    and one warning, of five lines, is printed; the same holds of the
    resolver run on that record. *)
Theorem doi_conflict_keeps_user_doi (b : BibItem) (r : arxivresult)
    (a mine theirs : str) :
  arxivid b = Some a →
  doi b = Some mine →
  ar_doi r = Some theirs →
  mine ≠ theirs →
  let lines :=
    [PrintErr (py "WARNING: manually specified DOI for arXiv:" ++ a
               ++ py " disagrees with arXiv information.");
     PrintErr (py "You have: ");
     PrintErr (py "arXiv has: " ++ theirs);
     PrintErr (py "Using your DOI.");
     PrintErr (py "")] in
  ∃ b', read_arxiv_information b r = (lines, Ok b')
        ∧ doi b' = Some mine
        ∧ length (warnings lines) = 1%nat
        ∧ (arxiv_populated b = false →
           arxiv_query [a] 1 = Returns [r] →
           populate_arxiv_information [b] [0%nat]
           = (ArxivQuery [a] 1 :: lines, Ok [b'])).
Proof.
  intros Ha Hmine Htheirs Hne lines.
  destruct (read_arxiv_information b r) as [t res] eqn:Hread.
  unfold read_arxiv_information in Hread.
  rewrite Hmine, Htheirs, Ha, bool_decide_true in Hread by done.
  cbn in Hread. injection Hread as <- <-.
  eexists. split; [reflexivity|]. split; [done|]. split; [by vm_compute|].
  intros Hpop Hquery.
  unfold populate_arxiv_information.
  cbn [List.filter pending_arxiv lookup list_lookup].
  rewrite Ha, Hpop, (bool_decide_true (is_Some (Some a))) by eauto.
  cbn [andb negb omap list_omap mbind option_bind lookup list_lookup].
  rewrite Ha. cbn [length]. rewrite bool_decide_false by done.
  rewrite Hquery. cbn -[read_arxiv_information].
  rewrite bool_decide_false by (intros Hlen; by apply Hlen).
  cbn -[read_arxiv_information]. unfold read_arxiv_information.
  rewrite Hmine, Htheirs, Ha, bool_decide_true by done. reflexivity.
Qed.


(** When every look-up of the fallback succeeds the resolver goes on with
    the results. *)
Lemma query_individually_succeeds ids :
  Forall lookup_succeeds ids →
  ∃ results, query_individually ids = (ArxivQueryStr <$> ids, Ok results)
             ∧ length results = length ids.
Proof.
  induction 1 as [|i ids (x & more & Hi) _ (results & IH & Hlen)].
  - by exists [].
  - exists (x :: results). cbn [fmap list_fmap query_individually length].
    rewrite Hi, IH. cbn. rewrite app_nil_r, Hlen. by split.
Qed.



End preprint_facts.


Lemma doi_conflict_example :
  let b := new_BibItem (py "arXiv:2303.01234") (Some (py "2303.01234"))
             (Some (py "10.1/a")) in
  let r := {| ar_authors := [py "Ada Lovelace"];
              ar_title := py "A title";
              ar_summary := py "An abstract.";
              ar_doi := Some (py "10.1/b") |} in
  ∃ b', (read_arxiv_information b r).2 = Ok b'
        ∧ doi b' = Some (py "10.1/a")
        ∧ length (warnings (read_arxiv_information b r).1) = 1%nat.
Proof.
  intros b r.
  destruct (@doi_conflict_keeps_user_doi (example_services (py "A title")) b r
              (py "2303.01234") (py "10.1/a") (py "10.1/b")
              eq_refl eq_refl eq_refl ltac:(by vm_compute))
    as (b' & Hread & Hdoi & Hwarn & _).
  exists b'. rewrite Hread. by split.
Defined.



(** ** The document resolver *)

Section document_facts.
Context `{!Unicode} `{!Settings} `{!Services}.

Lemma crossref_requests_app t1 t2 :
  crossref_requests (t1 ++ t2) = crossref_requests t1 ++ crossref_requests t2.
Proof. apply omap_app. Qed.

Lemma quiet_bind {A B} (m : M A) (f : A → M B) :
  quiet m → (∀ a, quiet (f a)) → quiet (m ≫= f).
Proof.
  intros Hm Hf.
  destruct m as [t [a|e]]; [rewrite bind_trace_ok|by rewrite bind_raised].
  unfold quiet in *. cbn [fst] in *.
  rewrite crossref_requests_app, Hm. apply Hf.
Qed.

Lemma quiet_mret {A} (a : A) : quiet (mret a : M A).
Proof. done. Qed.

Lemma quiet_lift {A} (r : result A) : quiet (lift r).
Proof. done. Qed.

Lemma quiet_raise {A} (e : exn) : quiet (raise e : M A).
Proof. done. Qed.

Lemma quiet_PrintErr line : quiet (emit (PrintErr line)).
Proof. done. Qed.

Lemma quiet_item {A} key (field : option A) : quiet (item key field).
Proof. by destruct field. Qed.

Lemma quiet_on_KeyError {A} printed (m : M A) :
  crossref_requests [printed] = [] → quiet m → quiet (on_KeyError printed m).
Proof.
  unfold quiet. destruct m as [t [a|[]]]; cbn [on_KeyError fst]; try done.
  intros Hp Ht. by rewrite crossref_requests_app, Ht, Hp.
Qed.

Create HintDb quiet.
#[local] Hint Resolve quiet_mret quiet_lift quiet_raise quiet_PrintErr
  quiet_item : quiet.

Ltac quiet_steps :=
  repeat first
    [ apply quiet_bind; [|intros ?]
    | solve [auto with quiet]
    | case_bool_decide
    | match goal with
      | |- quiet (match ?x with _ => _ end) => destruct x
      end ].

Lemma quiet_bad_journal_exit {A} journalname :
  quiet (bad_journal_exit journalname : M A).
Proof. unfold bad_journal_exit. quiet_steps. Qed.

Lemma quiet_bad_type_exit {A} b crossref_type :
  quiet (bad_type_exit b crossref_type : M A).
Proof. unfold bad_type_exit. quiet_steps. Qed.

#[local] Hint Resolve quiet_bad_journal_exit quiet_bad_type_exit : quiet.

Lemma quiet_read_message b m : quiet (read_message b m).
Proof. unfold read_message. quiet_steps. Qed.

Lemma quiet_read_journal_information b r : quiet (read_journal_information b r).
Proof.
  unfold read_journal_information. destruct (message r).
  - apply quiet_on_KeyError; [done|apply quiet_read_message].
  - by apply quiet_on_KeyError.
Qed.

Lemma quiet_read_all {R} (read : BibItem → R → M BibItem) pairs :
  (∀ b r, quiet (read b r)) → ∀ h, quiet (read_all read h pairs).
Proof.
  intros Hread. induction pairs as [|[r x] pairs IH]; intros h; [done|].
  cbn [read_all]. destruct (h !! r); [|done].
  apply quiet_bind; [done|]. intros b'. apply IH.
Qed.

Lemma crossref_read_loop_cons d dois :
  crossref_read_loop (d :: dois)
  = match cr_works [d] with
    | Returns r =>
        (CrossrefWorks [d] :: Sleep :: (crossref_read_loop dois).1,
         match (crossref_read_loop dois).2 with
         | Ok results => Ok (r :: results)
         | Raise e => Raise e
         end)
    | Fails args => ([CrossrefWorks [d]], Raise (ServiceError args))
    end.
Proof.
  cbn [crossref_read_loop]. unfold crossref_read_chunk.
  rewrite bind_emit. destruct (cr_works [d]) as [r|args]; [|done].
  cbn. destruct (crossref_read_loop dois) as [t [results|e]]; cbn; [|done].
  by rewrite app_nil_r.
Qed.

Lemma crossref_read_loop_requests dois :
  crossref_requests (crossref_read_loop dois).1
  `prefix_of` ((λ d, [d]) <$> dois).
Proof.
  induction dois as [|d dois IH]; [done|].
  rewrite crossref_read_loop_cons. destruct (cr_works [d]); cbn.
  - by apply prefix_cons.
  - apply prefix_cons, prefix_nil.
Qed.

Lemma crossref_read_loop_answered dois :
  Forall (λ d, ∃ r, cr_works [d] = Returns r) dois →
  ∃ results, (crossref_read_loop dois).2 = Ok results
             ∧ length results = length dois
             ∧ crossref_requests (crossref_read_loop dois).1
               = (λ d, [d]) <$> dois.
Proof.
  induction 1 as [|d dois [r Hd] _ (results & Hok & Hlen & Hreq)].
  - by exists [].
  - rewrite crossref_read_loop_cons, Hd, Hok. exists (r :: results).
    split; [done|]. split; [cbn; by rewrite Hlen|].
    unfold crossref_requests in *. cbn [fst omap list_omap fmap list_fmap].
    by rewrite Hreq.
Qed.

Lemma crossref_read_requests dois :
  dois ≠ [] →
  crossref_requests (crossref_read dois).1 `prefix_of` ((λ d, [d]) <$> dois)
  ∧ (Forall (λ d, ∃ r, cr_works [d] = Returns r) dois →
     ∃ results, (crossref_read dois).2 = Ok (Listed results)
                ∧ length results = length dois
                ∧ crossref_requests (crossref_read dois).1
                  = (λ d, [d]) <$> dois).
Proof.
  intros Hdois. unfold crossref_read, chunk_size. case_bool_decide as Hlen.
  - destruct dois as [|d [|d' dois]]; [done| |cbn in Hlen; lia].
    unfold crossref_read_chunk. rewrite bind_emit. split.
    + by destruct (cr_works [d]).
    + intros Hall. apply Forall_cons in Hall as [[r ->] _].
      exists [r]. by cbn.
  - assert (∀ B (f : unit → M B),
              crossref_requests
                ((if bool_decide (5 < length dois)%nat
                  then emit (PrintErr (py "Retrieving Crossref data (might take a while)..."));;
                       emit (ProgressBar (length dois))
                  else mret tt) ≫= f).1
              = crossref_requests (f tt).1
              ∧ ((if bool_decide (5 < length dois)%nat
                  then emit (PrintErr (py "Retrieving Crossref data (might take a while)..."));;
                       emit (ProgressBar (length dois))
                  else mret tt) ≫= f).2 = (f tt).2) as Hbar.
    { intros B f. case_bool_decide; cbn; by destruct (f tt). }
    destruct (Hbar _ (λ _ : unit, results ← crossref_read_loop dois;
                                  mret (Listed results))) as [-> ->].
    pose proof (crossref_read_loop_requests dois) as Hprefix.
    split.
    + destruct (crossref_read_loop dois) as [t [results|e]]; cbn in *;
        by rewrite ?app_nil_r.
    + intros Hall.
      destruct (crossref_read_loop_answered dois Hall)
        as (results & Hok & Hrlen & Hreq).
      exists results.
      destruct (crossref_read_loop dois) as [t [results'|e]]; cbn in *;
        simplify_eq. by rewrite app_nil_r.
Qed.

Lemma pending_doi_has_doi h r :
  pending_doi h r = true → is_Some (h !! r ≫= doi).
Proof.
  unfold pending_doi. destruct (h !! r) as [b|]; [|done]. cbn.
  intros [Hdoi _]%andb_prop. by apply bool_decide_eq_true in Hdoi.
Qed.

Lemma pending_dois_length h refs :
  length (omap (λ r, h !! r ≫= doi) (List.filter (pending_doi h) refs))
  = length (List.filter (pending_doi h) refs).
Proof.
  induction refs as [|r refs IH]; [done|]. cbn [List.filter].
  destruct (pending_doi h r) eqn:E; [|done].
  destruct (pending_doi_has_doi h r E) as [d Hd].
  cbn [omap list_omap]. rewrite Hd. cbn. by rewrite <- IH.
Qed.

(** C2, as the program has it. The resolver submits the ids of the
    pending records, those with a document id that are not yet
    document-populated, in the order of the input, one id per request and
    one request per record: the requests of a run are the first of these,
    and all of them when the service answers each; an id that several
    pending records share is submitted once for each of them. *)
Theorem one_request_per_pending_record (h : list BibItem) (refs : list nat) :
  let pending := List.filter (pending_doi h) refs in
  let dois := omap (λ r, h !! r ≫= doi) pending in
  length dois = length pending
  ∧ crossref_requests (populate_doi_information h refs).1
    `prefix_of` ((λ d, [d]) <$> dois)
  ∧ (Forall (λ d, ∃ r, cr_works [d] = Returns r) dois →
     crossref_requests (populate_doi_information h refs).1
     = (λ d, [d]) <$> dois).
Proof.
  cbv zeta. split; [apply pending_dois_length|].
  unfold populate_doi_information. cbv zeta.
  set (pending := List.filter (pending_doi h) refs).
  set (dois := omap _ pending).
  case_bool_decide as Hempty.
  { destruct dois; [|done]. split; [done|]. by intros. }
  assert (dois ≠ []) as Hdois by (by destruct dois).
  destruct (crossref_read_requests dois Hdois) as [Hprefix Hall].
  assert (∀ results,
            quiet (match results with
                   | Listed results =>
                       read_all read_journal_information h (zip pending results)
                   | Bare _ => raise TypeError
                   end)) as Hquiet.
  { intros [|results]; [done|].
    apply quiet_read_all, quiet_read_journal_information. }
  destruct (crossref_read dois) as [t [results|e]]; cbn [fst snd] in *.
  - rewrite bind_trace_ok. cbn [fst].
    rewrite crossref_requests_app, (Hquiet results), app_nil_r.
    split; [done|]. intros Hanswered.
    by destruct (Hall Hanswered) as (? & _ & _ & ->).
  - rewrite bind_raised. cbn [fst]. split; [done|]. intros Hanswered.
    by destruct (Hall Hanswered) as (? & _ & _ & ->).
Qed.

End document_facts.


(** The counterexample to the claim as the specification has it: two
    directives with the same document id make two records, and the
    resolver submits the id once for each. *)
Lemma deduplication_counterexample :
  match @init_from_lines example_tables (example_settings []) empty_world
          two_directives_one_doi with
  | Ok (refs, w) =>
      refs = [0; 1]%nat
      ∧ doi <$> heap w = [Some (py "10.1/a"); Some (py "10.1/a")]
      ∧ (@populate_doi_information (example_settings [])
           (example_document_services article_with_volume) (heap w) refs).1
        = [CrossrefWorks [py "10.1/a"]; Sleep;
           CrossrefWorks [py "10.1/a"]; Sleep]
  | Raise _ => False
  end.
Proof. vm_compute. by repeat split. Qed.

Lemma one_request_per_pending_record_example :
  crossref_requests
    (@populate_doi_information (example_settings [])
       (example_document_services article_with_volume)
       [ new_BibItem (py "doi:10.1/a") None (Some (py "10.1/a"));
         new_BibItem (py "arXiv:2303.01234") (Some (py "2303.01234")) None;
         new_BibItem (py "doi:10.1/b") None (Some (py "10.1/b")) ]
       [0; 1; 2]%nat).1
  = [[py "10.1/a"]; [py "10.1/b"]].
Proof.
  rewrite (proj2 (proj2 (@one_request_per_pending_record (example_settings [])
                           (example_document_services article_with_volume)
                           _ [0; 1; 2]%nat))).
  - vm_compute. reflexivity.
  - vm_compute. repeat constructor; by eexists.
Defined.

(** ** The reverse extractor *)

Section extractor_facts.
Context `{!Unicode} `{!bibextract.Lookups}.

(** C3, as the program has it. For an entry of type [article] that is not
    flagged and has the four fields of a journal reference, when the
    search by journal reference finds nothing: one warning naming the id
    of the entry is printed on [sys.stderr] and no directive line is
    made; [process] prints nothing on the output and keeps the entry in
    the database. *)
Theorem failed_lookup_makes_no_directive (entry kwargs : gmap str str)
    (id : str) :
  entry !! py "ENTRYTYPE" = Some (py "article") →
  entry !! py "imbibeable" ≠ Some (py "no") →
  bibextract.translate entry bibextract.fieldtranslations = Some kwargs →
  bibextract.crossref_find_from_journalref
    (match entry !! py "title" with
     | Some t => <[py "articletitle" := t]> kwargs
     | None => kwargs
     end) = None →
  entry !! py "ID" = Some id →
  let warning :=
    PrintErr (py "WARNING: lookup for article with bibtex ID " ++ id
              ++ py " failed.") in
  bibextract.process_entry entry = ([warning], Ok None)
  ∧ bibextract.process [entry] = ([warning], Ok [entry])
  ∧ printed_lines (bibextract.process [entry]).1 = [].
Proof.
  intros Htype Hflag Hfields Hsearch Hid warning.
  assert (bibextract.process_entry entry = ([warning], Ok None)) as Hentry.
  { unfold bibextract.process_entry, bibextract.getitem.
    rewrite Htype. cbn [mbind M_bind mret M_ret].
    rewrite bool_decide_false, bool_decide_false, Hfields, Hsearch, Hid
      by (done || (intros Hne; by apply Hne)).
    reflexivity. }
  split; [done|].
  unfold bibextract.process. cbn [bibextract.process_entries].
  rewrite Hentry. by split.
Qed.

End extractor_facts.

(** The counterexample to the claim as the specification has it: the
    search finds nothing for the entry, the extractor warns, makes no
    line, and prints nothing on the output; there is no line in ['doi:']. *)
Lemma doi_fallback_counterexample :
  @bibextract.process_entry example_tables no_match example_entry
  = ([PrintErr (py "WARNING: lookup for article with bibtex ID lovelace1843 failed.")],
     Ok None)
  ∧ printed_lines
      (@bibextract.process example_tables no_match [example_entry]).1 = [].
Proof. split; vm_compute; reflexivity. Qed.

Lemma failed_lookup_example :
  @bibextract.process example_tables no_match [example_entry]
  = ([PrintErr (py "WARNING: lookup for article with bibtex ID lovelace1843 failed.")],
     Ok [example_entry]).
Proof.
  apply (proj1 (proj2 (@failed_lookup_makes_no_directive example_tables
                         no_match example_entry
                         (default ∅ (bibextract.translate example_entry
                                       bibextract.fieldtranslations))
                         (py "lovelace1843")
                         ltac:(by vm_compute) ltac:(by vm_compute)
                         ltac:(by vm_compute) eq_refl ltac:(by vm_compute)))).
Defined.

(** Where the form in ['doi:'] is used: the search finds the article and
    no preprint is known for its document id. *)
Lemma doi_form_without_preprint :
  @bibextract.process example_tables match_without_preprint [example_entry]
  = ([PrintErr (py "WARNING: No arXiv ID found for DOI: 10.1/a");
      Print (py "doi:10.1/a [bibtex_id:lovelace1843]")],
     Ok []).
Proof. vm_compute. reflexivity. Qed.

(** ** Further properties: text helpers *)





(** X2. [process_text] leaves neither of the two characters that it
    replaces, so applying it twice is applying it once; a text that has
    neither is unchanged. *)
Theorem process_text_substitutes (text : str) :
  (8200 ∉ process_text text)
  ∧ (8722 ∉ process_text text)
  ∧ process_text (process_text text) = process_text text
  ∧ (8200 ∉ text → 8722 ∉ text → process_text text = text).
Proof.
  assert (∀ s, 8200 ∉ s → 8722 ∉ s → process_text s = s) as Hid.
  { induction s as [|c s IH]; intros H1 H2; [done|].
    apply not_elem_of_cons in H1 as [H1 H1'].
    apply not_elem_of_cons in H2 as [H2 H2'].
    change (process_text (c :: s))
      with ((if c =? 8200 then py " " else if c =? 8722 then py "--" else [c])
            ++ process_text s).
    rewrite IH by done.
    destruct (N.eqb_spec c 8200); [done|].
    by destruct (N.eqb_spec c 8722). }
  assert (∀ x, x = 8200 ∨ x = 8722 → x ∉ process_text text) as Hout.
  { intros x Hx. induction text as [|c s IH]; [by apply not_elem_of_nil|].
    change (process_text (c :: s))
      with ((if c =? 8200 then py " " else if c =? 8722 then py "--" else [c])
            ++ process_text s).
    apply not_elem_of_app. split; [|done].
    destruct (N.eqb_spec c 8200).
    { destruct Hx as [-> | ->]; compute_done. }
    destruct (N.eqb_spec c 8722).
    { destruct Hx as [-> | ->]; compute_done. }
    apply not_elem_of_cons. split; [|apply not_elem_of_nil].
    by destruct Hx as [-> | ->]. }
  split; [by apply Hout; left|]. split; [by apply Hout; right|].
  split; [|apply Hid]. apply Hid; apply Hout; [by left|by right].
Qed.

Lemma process_text_example :
  process_text (py "plain text") = py "plain text".
Proof.
  apply (proj2 (proj2 (proj2 (process_text_substitutes (py "plain text")))));
    compute_done.
Defined.

(** X3. [format_authorlist] is the join of the authors with [" and "]. *)
Theorem format_authorlist_is_join (l : list str) :
  format_authorlist l = join (py " and ") l.
Proof.
  induction l as [|a l IH]; [done|].
  destruct l as [|b l]; [done|].
  change (join (py " and ") (a :: b :: l))
    with (a ++ py " and " ++ join (py " and ") (b :: l)).
  rewrite <- IH. unfold format_authorlist.
  change (last (a :: b :: l)) with (last (b :: l)).
  destruct (last (b :: l)) as [x|] eqn:Hlast; [|by apply last_None in Hlast].
  cbn [length Nat.sub]. rewrite Nat.sub_0_r.
  cbn [take fmap list_fmap concat]. by rewrite <- !app_assoc.
Qed.

(** ** Further properties: the directive parser *)


Section parser_invariants.
Context `{!Unicode} `{!Settings}.




Lemma apply_option_errors st key value e :
  apply_option st key value = Raise e → ∃ msg, e = RuntimeError msg.
Proof.
  unfold apply_option. intros Hst.
  repeat case_bool_decide; try destruct (p_doi st); simplify_eq; by eauto.
Qed.

Lemma process_opts_errors opts : ∀ st e,
  process_opts st opts = Raise e →
  e = IndexError ∨ ∃ msg, e = RuntimeError msg.
Proof.
  induction opts as [|opt opts IH]; cbn [process_opts]; intros st e Hst; [done|].
  destruct (process_opt st opt) as [st1|e1] eqn:E; cbn in Hst.
  - by eapply IH.
  - simplify_eq. rewrite process_opt_eq in E.
    destruct (option_key opt), (option_value opt); simplify_eq; eauto.
    right. by eapply apply_option_errors.
Qed.

Lemma apply_option_keeps_doi_value st key value st' d :
  apply_option st key value = Ok st' →
  p_doi st = Some d → p_doi st' = Some d.
Proof.
  unfold apply_option. intros Hst Hdoi.
  repeat case_bool_decide; rewrite ?Hdoi in Hst; simplify_eq; done.
Qed.

Lemma process_opts_keeps_doi_value opts : ∀ st st' d,
  process_opts st opts = Ok st' →
  p_doi st = Some d → p_doi st' = Some d.
Proof.
  induction opts as [|opt opts IH]; cbn [process_opts]; intros st st' d Hst Hdoi.
  - by simplify_eq.
  - destruct (process_opt st opt) as [st1|e] eqn:E; cbn in Hst; [|done].
    apply (IH st1); [done|].
    rewrite process_opt_eq in E.
    destruct (option_key opt), (option_value opt); try done.
    by eapply apply_option_keeps_doi_value.
Qed.

(** The canonical id of a parsed record, from the identifier alone. *)
Lemma parsed_canonical_id line b :
  parse_line line = Ok b →
  canonical_id b
  = if bool_decide (take 4 (main_of line) = py "doi:") then main_of line
    else py "arXiv:" ++ main_of line.
Proof.
  unfold parse_line, build_bibitem. intros Hparse.
  destruct (process_opts _ _) as [st|] eqn:Hopts; cbn in Hparse; [|done].
  unfold main_arxivid in Hparse. case_bool_decide as Hmain.
  - rewrite (process_opts_keeps_doi_value _ _ _ (drop 4 (main_of line)) Hopts)
      in Hparse.
    + cbn in Hparse. injection Hparse as <-.
      change (py "doi:" ++ drop 4 (main_of line) = main_of line).
      rewrite <- Hmain. apply take_drop.
    + unfold initial_state, main_doi. cbn. by rewrite bool_decide_true.
  - cbn in Hparse. by simplify_eq.
Qed.

(** X5. The parser raises nothing but the [IndexError] of an option
    without value and the [RuntimeError]s of the loop: the check of
    [__init__] never fails on a parsed line. A line without option parses. *)
Theorem parse_line_errors (line : str) :
  (∀ e, parse_line line = Raise e →
        e = IndexError ∨ ∃ msg, e = RuntimeError msg)
  ∧ (options_of line = [] → ∃ b, parse_line line = Ok b).
Proof.
  unfold parse_line. split.
  - intros e Hparse.
    destruct (process_opts _ _) as [st|e1] eqn:Hopts; cbn in Hparse.
    + destruct (build_bibitem_ok (main_of line) st) as (b & Hb & _);
        [|by rewrite Hb in Hparse].
      intros Hmain. eapply process_opts_keeps_doi; [done|].
      unfold main_arxivid in Hmain. unfold initial_state, main_doi. cbn.
      by case_bool_decide.
    + simplify_eq. by eapply process_opts_errors.
  - intros ->. cbn.
    destruct (build_bibitem_ok (main_of line) (initial_state (main_of line)))
      as (b & Hb & _); [|by eauto].
    unfold main_arxivid, initial_state, main_doi. cbn. by case_bool_decide.
Qed.

(** X6. Two parsed records are equal for [__eq__] exactly when the
    identifiers of their lines are the same text: the options, a [doi]
    option included, play no part in the identity of a record. *)
Theorem parsed_records_equal_iff (l1 l2 : str) (b1 b2 : BibItem) :
  parse_line l1 = Ok b1 →
  parse_line l2 = Ok b2 →
  BibItem_eq b1 b2 = true ↔ main_of l1 = main_of l2.
Proof.
  intros H1%parsed_canonical_id H2%parsed_canonical_id.
  unfold BibItem_eq. rewrite bool_decide_eq_true, H1, H2.
  split; [|by intros ->].
  case_bool_decide as Hd1; case_bool_decide as Hd2; intros Heq.
  - done.
  - match goal with
    | Hd : take 4 ?m = py "doi:" |- _ =>
        first [rewrite Heq in Hd | rewrite <- Heq in Hd]; by vm_compute in Hd
    end.
  - match goal with
    | Hd : take 4 ?m = py "doi:" |- _ =>
        first [rewrite Heq in Hd | rewrite <- Heq in Hd]; by vm_compute in Hd
    end.
  - by apply app_inv_head in Heq.
Qed.

End parser_invariants.


Lemma parse_line_errors_example :
  (∃ b, @parse_line example_tables (example_settings []) (py "2303.01234")
        = Ok b)
  ∧ (IndexError = IndexError ∨ ∃ msg, IndexError = RuntimeError msg).
Proof.
  split.
  - apply (proj2 (@parse_line_errors example_tables (example_settings [])
                    (py "2303.01234"))).
    by vm_compute.
  - apply (proj1 (@parse_line_errors example_tables (example_settings [])
                    (py "2303.01234 []"))).
    by vm_compute.
Defined.

Lemma parsed_records_equal_example :
  match @parse_line example_tables (example_settings [])
          (py "2303.01234 [bibtex_id:a]"),
        @parse_line example_tables (example_settings [])
          (py "2303.01234 [doi:10.1/b]") with
  | Ok b1, Ok b2 => BibItem_eq b1 b2 = true
  | _, _ => False
  end.
Proof.
  destruct (@parse_line example_tables (example_settings [])
              (py "2303.01234 [bibtex_id:a]")) as [b1|e] eqn:E1;
    [|by vm_compute in E1].
  destruct (@parse_line example_tables (example_settings [])
              (py "2303.01234 [doi:10.1/b]")) as [b2|e] eqn:E2;
    [|by vm_compute in E2].
  apply (@parsed_records_equal_iff example_tables (example_settings [])
           _ _ b1 b2 E1 E2).
  by vm_compute.
Defined.

(** ** Further properties: the grammar of a line and the cache *)

Lemma plain_char_spec c :
  plain_char c = true → is_bracket c = false ∧ is_backslash c = false.
Proof.
  unfold plain_char. intros [H1 H2]%andb_prop.
  by apply negb_true_iff in H1, H2.
Qed.

Lemma re_split_brackets_plain s : ∀ prev,
  Forall (λ c, plain_char c = true) s → re_split_brackets prev s = [s].
Proof.
  induction s as [|c s IH]; intros prev Hs; [done|].
  apply Forall_cons in Hs as [[Hc _]%plain_char_spec Hs].
  cbn [re_split_brackets]. rewrite Hc. cbn [andb]. by rewrite IH.
Qed.

Lemma re_split_brackets_at s c rest :
  Forall (λ c, plain_char c = true) s →
  is_bracket c = true →
  re_split_brackets false (s ++ c :: rest)
  = s :: re_split_brackets false rest.
Proof.
  intros Hs Hc.
  assert (∀ prev, prev = false →
            re_split_brackets prev (s ++ c :: rest)
            = s :: re_split_brackets false rest) as Hgen; [|by apply Hgen].
  induction Hs as [|x s [Hx Hb]%plain_char_spec _ IH]; intros prev ->.
  - cbn [app re_split_brackets]. by rewrite Hc.
  - cbn [app re_split_brackets]. rewrite Hx, Hb. cbn [andb]. by rewrite IH.
Qed.

Lemma re_split_brackets_escaped s c rest :
  Forall (λ c, plain_char c = true) s →
  Forall (λ c, plain_char c = true) rest →
  re_split_brackets false (s ++ ch "\" :: c :: rest)
  = [s ++ ch "\" :: c :: rest].
Proof.
  intros Hs Hrest.
  assert (∀ prev, re_split_brackets prev (s ++ ch "\" :: c :: rest)
                  = [s ++ ch "\" :: c :: rest]) as Hgen; [|by apply Hgen].
  induction Hs as [|x s [Hx Hb]%plain_char_spec _ IH]; intros prev.
  - cbn [app re_split_brackets].
    change (is_bracket (ch "\")) with false.
    change (is_backslash (ch "\")) with true.
    cbn [andb negb]. rewrite andb_false_r.
    by rewrite re_split_brackets_plain.
  - cbn [app re_split_brackets]. rewrite Hx. cbn [andb]. by rewrite IH.
Qed.

Section grammar.
Context `{!Unicode} `{!Settings}.

(** X7. In a line made of an identifier, an opening bracket, the text of
    the options, a closing bracket and anything after it, where the
    identifier and the options have neither bracket nor backslash, the
    parser reads the identifier stripped of its blanks and the options
    separated by commas, and ignores what follows the closing bracket. A
    bracket that a backslash precedes does not open the options: it stays
    in the identifier, with its backslash. *)
Theorem line_grammar (main opts rest : str) :
  Forall (λ c, plain_char c = true) main →
  Forall (λ c, plain_char c = true) opts →
  (main_of (main ++ ch "[" :: opts ++ ch "]" :: rest) = strip main
   ∧ options_of (main ++ ch "[" :: opts ++ ch "]" :: rest)
     = split_on (ch ",") opts)
  ∧ (main_of (main ++ ch "\" :: ch "[" :: opts) = strip (main ++ ch "\" :: ch "[" :: opts)
     ∧ options_of (main ++ ch "\" :: ch "[" :: opts) = []).
Proof.
  intros Hmain Hopts. unfold main_of, options_of. split.
  - rewrite re_split_brackets_at by done.
    by rewrite re_split_brackets_at by done.
  - by rewrite re_split_brackets_escaped.
Qed.

(** X8. After a line has been parsed, parsing it again gives the same
    object and changes nothing; the store only grows, and when every
    object that the cache names is in the store before the call, so it
    is after it, the object returned included. *)
Theorem cache_returns_the_same_object (w w' : world) (line : str) (r : nat) :
  init_from_input_file_line w line = Ok (r, w') →
  init_from_input_file_line w' line = Ok (r, w')
  ∧ heap w `prefix_of` heap w'
  ∧ (cache_in_heap w → cache_in_heap w' ∧ (r < length (heap w'))%nat).
Proof.
  unfold init_from_input_file_line at 1.
  destruct (cache w !! line) as [r0|] eqn:Hcache.
  - intros [= -> ->]. split; [|split; [done|]].
    + unfold init_from_input_file_line. by rewrite Hcache.
    + intros Hwf. split; [done|]. by eapply Hwf.
  - destruct (parse_line line) as [b|e]; cbn; [|done].
    intros [= <- <-]. split; [|split].
    + unfold init_from_input_file_line. cbn [cache].
      by rewrite lookup_insert_eq.
    + cbn [heap]. by apply prefix_app_r.
    + intros Hwf.
      assert (length (heap w) < length (heap w ++ [b]))%nat as Hlt.
      { rewrite length_app. cbn. lia. }
      split; [|done]. intros line' r'. cbn [cache heap].
      rewrite lookup_insert. case_decide.
      * by intros [= <-].
      * intros Hr'%Hwf. lia.
Qed.

End grammar.

Lemma line_grammar_example :
  @main_of example_tables (py "2303.01234 [bibtex_id:foo, note:x] and more")
  = py "2303.01234"
  ∧ options_of (py "2303.01234 [bibtex_id:foo, note:x] and more")
    = [py "bibtex_id:foo"; py " note:x"].
Proof.
  destruct (proj1 (@line_grammar example_tables (py "2303.01234 ")
                     (py "bibtex_id:foo, note:x") (py " and more")
                     ltac:(vm_compute; repeat constructor)
                     ltac:(vm_compute; repeat constructor)))
    as [Hmain Hopts].
  split; [exact Hmain|exact Hopts].
Defined.

Lemma cache_returns_the_same_object_example :
  match @init_from_input_file_line example_tables (example_settings [])
          empty_world (py "2303.01234") with
  | Ok (r, w') =>
      @init_from_input_file_line example_tables (example_settings [])
        w' (py "2303.01234") = Ok (r, w')
  | Raise _ => False
  end.
Proof.
  destruct (@init_from_input_file_line example_tables (example_settings [])
              empty_world (py "2303.01234")) as [[r w']|e] eqn:E;
    [|by vm_compute in E].
  apply (@cache_returns_the_same_object example_tables (example_settings [])
           empty_world w' _ r E).
Defined.

(** ** Further properties: keys and titles *)

Lemma split_when_two p s :
  existsb p s = true → ∃ a b rest, split_when p s = a :: b :: rest.
Proof.
  induction s as [|c s IH]; [done|]. cbn [existsb split_when].
  destruct (p c) eqn:Hc.
  - intros _. destruct (split_when_cons p s) as (w & ws & ->). by eauto.
  - intros (a & b & rest & ->)%IH. by eauto.
Qed.

(** Every string is a part without [c] followed by nothing, or by [c]
    and more. *)
Lemma first_occurrence (c : char) (s : str) :
  ∃ before rest, s = before ++ rest ∧ (c ∉ before)
                 ∧ (rest = [] ∨ ∃ t, rest = c :: t).
Proof.
  induction s as [|x s (before & rest & -> & Hbefore & Hrest)].
  - exists [], []. split; [done|]. split; [apply not_elem_of_nil|by left].
  - destruct (decide (x = c)) as [->|Hx].
    + exists [], (c :: before ++ rest).
      split; [done|]. split; [apply not_elem_of_nil|right; by eexists].
    + exists (x :: before), rest.
      split; [done|]. split; [|done].
      apply not_elem_of_cons. by split.
Qed.

Section key_facts.
Context `{!Unicode} `{!Settings}.

(** X9. Every id is a part without dot followed by nothing, or by a
    dot and more. [make_bibtexid_from_arxivid] fails exactly for an id
    without slash whose part before the first dot has not four
    characters, and then by its assertion; it fails in no other way. For
    every other id it returns a key: the transliteration of the
    alphabetic form of the name, an underscore and a stamp of at most
    four characters. *)
Theorem make_bibtexid_outcomes (name yymm rest : str) :
  ch "." ∉ yymm →
  (rest = [] ∨ ∃ t, rest = ch "." :: t) →
  (make_bibtexid_from_arxivid name (yymm ++ rest) = Raise AssertionError
   ↔ (ch "/" ∉ yymm ++ rest) ∧ length yymm ≠ 4%nat)
  ∧ (∀ e, make_bibtexid_from_arxivid name (yymm ++ rest) = Raise e →
          e = AssertionError)
  ∧ (¬ ((ch "/" ∉ yymm ++ rest) ∧ length yymm ≠ 4%nat) →
     ∃ letters stamp,
       alphabetic_form name letters
       ∧ make_bibtexid_from_arxivid name (yymm ++ rest)
         = Ok (unidecode letters ++ py "_" ++ stamp)
       ∧ (length stamp ≤ 4)%nat).
Proof.
  intros Hdot Hrest. unfold make_bibtexid_from_arxivid.
  destruct (decide (ch "/" ∈ yymm ++ rest)) as [Hslash|Hslash].
  - pose proof (contains_true _ _ Hslash) as Hcontains. rewrite Hcontains.
    destruct (split_when_two (N.eqb (ch "/")) (yymm ++ rest))
      as (a & seg & more & Hsplit); [exact Hcontains|].
    unfold split_on. rewrite Hsplit. cbn. split; [|split].
    + split; [done|]. by intros [? _].
    + done.
    + intros _. exists (strip_nonalphabetic name), (take 4 seg).
      split; [apply alphabetic_form_strip|]. split; [done|].
      rewrite length_take. lia.
  - rewrite contains_false by done.
    assert (head (split_on (ch ".") (yymm ++ rest)) = Some yymm) as Hhd.
    { apply split_when_segment; [by apply not_elem_of_eqb|].
      destruct Hrest as [->|[t ->]]; [by left|right]. by exists (ch "."), t. }
    destruct (split_on _ (yymm ++ rest)) as [|w ws]; [done|].
    simpl in Hhd. simplify_eq. cbn.
    case_bool_decide as Hlen; cbn.
    + split; [|split].
      * split; [done|]. by intros [_ ?].
      * done.
      * intros _. exists (strip_nonalphabetic name), yymm.
        split; [apply alphabetic_form_strip|]. split; [done|lia].
    + split; [|split].
      * done.
      * by intros e [= <-].
      * intros Hnot. by destruct Hnot.
Qed.

(** X10. When no key can be made for a record, [output_bib] raises the
    exception of the key before it prints anything, the comment
    included; this is the [ValueError] of a record that has neither an
    explicit key nor a preprint id. A record with an explicit key has
    that key. *)
Theorem no_key_no_output (b : BibItem) :
  (∀ e eprint_published,
     generate_bibtexid b = Raise e →
     output_bib b eprint_published = ([], Raise e))
  ∧ (bibtex_id b = None → arxivid b = None →
     generate_bibtexid b
     = Raise (ValueError (py ("For papers not referenced by arXiv ID, you have to"
                              ++ "manually specify a BibTeX ID."))))
  ∧ (∀ k, bibtex_id b = Some k → generate_bibtexid b = Ok k).
Proof.
  split; [|split].
  - intros e ep Hkey. unfold output_bib, output_opening.
    destruct (bibtex_id b) as [k|] eqn:Hid.
    + unfold generate_bibtexid in Hkey. by rewrite Hid in Hkey.
    + by rewrite Hkey.
  - intros Hid Ha. unfold generate_bibtexid. by rewrite Hid, Ha.
  - intros k Hid. unfold generate_bibtexid. by rewrite Hid.
Qed.

(** X11. A title without any word (empty, or made of blanks) cannot be
    rendered under the automatic policy: the heuristic divides by the
    number of words and [ZeroDivisionError] is raised. Under an explicit
    policy every title is rendered: wrapped whole for [yes], through
    [protect_words] for [no]. *)
Theorem title_without_words (b : BibItem) (t : str) :
  title b = present t →
  (split_ws t = [] →
   origcase b = absent ∨ origcase b = present None →
   output_title b = ([], Raise ZeroDivisionError))
  ∧ (origcase b = present (Some true) →
     output_title b = ([Print (py "  title={{" ++ t ++ py "}},")], Ok tt))
  ∧ (origcase b = present (Some false) →
     output_title b
     = ([PrintErrList (re_split_W t);
         Print (py "  title={" ++ concat (protect_word <$> re_split_W t)
                ++ py "},")], Ok tt)).
Proof.
  intros Ht. unfold output_title. rewrite Ht. split; [|split].
  - intros Hwords Hpolicy.
    assert (match origcase b with present v => v | absent => None end = None)
      as -> by (by destruct Hpolicy as [-> | ->]).
    cbn [getattr]. rewrite bind_lift_ok, origcase_heuristic_eq.
    by rewrite bool_decide_true.
  - by intros ->.
  - by intros ->.
Qed.

(** X12. [protect_words] changes a title only by the braces that it
    adds: when no capitalized piece of the title is among the protected
    words, the title comes back as it is. *)
Theorem protect_words_leaves_other_titles (t : str) :
  Forall (λ word, capitalized word = false ∨ word ∉ protected_words)
         (re_split_W t) →
  protect_words t = ([PrintErrList (re_split_W t)], Ok t).
Proof.
  intros Hpieces. unfold protect_words. rewrite bind_emit. cbn.
  do 2 f_equal. rewrite <- (re_split_W_concat t) at 2. f_equal.
  induction Hpieces as [|w ws Hw _ IH]; [done|].
  cbn [fmap list_fmap]. rewrite IH, protect_word_eq. f_equal.
  destruct Hw as [-> | Hw]; [done|].
  by rewrite (bool_decide_false _ Hw), andb_false_r.
Qed.

End key_facts.

Lemma make_bibtexid_outcomes_example :
  @make_bibtexid_from_arxivid example_tables (py "Lovelace") (py "23030.1234")
  = Raise AssertionError.
Proof.
  apply (proj1 (@make_bibtexid_outcomes example_tables (py "Lovelace")
                  (py "23030") (py ".1234") ltac:(compute_done)
                  (or_intror (ex_intro _ (py "1234") eq_refl)))).
  split; [compute_done|by vm_compute].
Defined.

Lemma no_key_no_output_example :
  @output_bib example_tables (example_settings [])
    (new_BibItem (py "doi:10.1/a") None (Some (py "10.1/a"))) true
  = ([], Raise (ValueError (py ("For papers not referenced by arXiv ID, you have to"
                                ++ "manually specify a BibTeX ID.")))).
Proof.
  apply (proj1 (@no_key_no_output example_tables (example_settings [])
                  (new_BibItem (py "doi:10.1/a") None (Some (py "10.1/a"))))).
  by vm_compute.
Defined.

Lemma title_without_words_example :
  @output_title example_tables (example_settings []) (example_record (py "  "))
  = ([], Raise ZeroDivisionError).
Proof.
  apply (proj1 (@title_without_words example_tables (example_settings [])
                  (example_record (py "  ")) (py "  ") eq_refl));
    [by vm_compute|by left].
Defined.

Lemma protect_words_example :
  @protect_words example_tables (example_settings [py "Quantum"])
    (py "quantum Effects")
  = ([PrintErrList [py "quantum"; py " "; py "Effects"]],
     Ok (py "quantum Effects")).
Proof.
  rewrite (@protect_words_leaves_other_titles example_tables
             (example_settings [py "Quantum"]) (py "quantum Effects")).
  - by vm_compute.
  - assert (@re_split_W example_tables (py "quantum Effects")
            = [py "quantum"; py " "; py "Effects"]) as -> by (by vm_compute).
    apply Forall_cons. split; [left; by vm_compute|].
    apply Forall_cons. split; [left; by vm_compute|].
    apply Forall_cons. split; [right; compute_done|]. constructor.
Defined.

(** ** Further properties: the document resolver *)

Lemma bind_ok_inv {A B} (m : M A) (f : A → M B) t b :
  m ≫= f = (t, Ok b) →
  ∃ t1 a t2, m = (t1, Ok a) ∧ f a = (t2, Ok b) ∧ t = t1 ++ t2.
Proof.
  destruct m as [t1 [a|e]]; [|done]. rewrite bind_trace_ok.
  destruct (f a) as [t2 r] eqn:Hf. cbn. intros [= <- ->].
  by exists t1, a, t2.
Qed.

Lemma bind_mret {A B} (a : A) (f : A → M B) : (mret a : M A) ≫= f = f a.
Proof. apply bind_lift_ok. Qed.

Lemma returns_silently_bind {A B} (m : M A) (f : A → M B) P :
  returns_silently m (λ _, True) →
  (∀ a, returns_silently (f a) P) →
  returns_silently (m ≫= f) P.
Proof.
  intros Hm Hf t b (t1 & a & t2 & H1 & H2 & ->)%bind_ok_inv.
  destruct (Hm _ _ H1) as [-> _]. destruct (Hf _ _ _ H2) as [-> Hb].
  by split.
Qed.

Lemma returns_silently_never {A} (m : M A) P :
  never_returns m → returns_silently m P.
Proof. intros Hm t a Heq. by destruct (Hm t a). Qed.

Lemma returns_silently_mret {A} (a : A) (P : A → Prop) :
  P a → returns_silently (mret a : M A) P.
Proof. intros Ha t a' [= <- <-]. by split. Qed.

Lemma returns_silently_lift {A} (r : result A) :
  returns_silently (lift r) (λ _, True).
Proof. by intros t a [= <- _]. Qed.

Lemma returns_silently_item {A} key (field : option A) :
  returns_silently (item key field) (λ _, True).
Proof. destruct field as [v|]; by intros t x [= <- _]. Qed.

Lemma never_returns_raise {A} (e : exn) : never_returns (raise e : M A).
Proof. by intros t a. Qed.

Lemma never_returns_bind {A B} (m : M A) (f : A → M B) :
  (∀ a, never_returns (f a)) → never_returns (m ≫= f).
Proof.
  intros Hf t b (t1 & a & t2 & _ & H2 & _)%bind_ok_inv. by destruct (Hf a t2 b).
Qed.

Lemma never_returns_bad_journal_exit {A} journalname :
  never_returns (bad_journal_exit journalname : M A).
Proof.
  unfold bad_journal_exit.
  repeat (apply never_returns_bind; intros ?). apply never_returns_raise.
Qed.

Lemma never_returns_bad_type_exit {A} b crossref_type :
  never_returns (bad_type_exit b crossref_type : M A).
Proof.
  unfold bad_type_exit.
  repeat (apply never_returns_bind; intros ?). apply never_returns_raise.
Qed.

Section document_reading.
Context `{!Unicode} `{!Settings} `{!Services}.

Lemma read_message_returns b m :
  returns_silently (read_message b m) (document_populated_from b).
Proof.
  unfold read_message.
  repeat first
    [ apply returns_silently_never, never_returns_bad_type_exit
    | apply returns_silently_never, never_returns_bad_journal_exit
    | apply returns_silently_item
    | apply returns_silently_lift
    | apply returns_silently_mret
    | apply returns_silently_bind; [|intros ?]
    | match goal with
      | |- returns_silently (if ?x then _ else _) _ => destruct x
      | |- returns_silently (match ?x with _ => _ end) _ => destruct x
      end ];
    try done.
  all: unfold document_populated_from; cbn; repeat split; by eauto.
Qed.

Lemma read_journal_information_returns b b' cr_result t :
  read_journal_information b cr_result = (t, Ok b') →
  t = [] ∧ document_populated_from b b'.
Proof.
  unfold read_journal_information.
  destruct (message cr_result) as [m|]; [|done].
  intros Hread. apply (read_message_returns b m).
  destruct (read_message b m) as [t0 [a|[]]]; by cbn in Hread.
Qed.

(** X13. When [read_journal_information] returns it has printed nothing,
    and the record has every field of the journal block, the volume
    possibly [None]; its identity, its ids and what the parser and the
    preprint resolver had set are as before. *)
Theorem read_journal_information_populates (b b' : BibItem)
    (cr_result : cr_response) (t : list event) :
  read_journal_information b cr_result = (t, Ok b') →
  t = [] ∧ document_populated_from b b'.
Proof.
  intros Hread. split.
  - by destruct (read_journal_information_returns _ _ _ _ Hread).
  - by destruct (read_journal_information_returns _ _ _ _ Hread).
Qed.

(** X14. What the provider sends of an entry that is not a journal
    article stops the program: the document id, the preprint id if there
    is one and the type are printed on [sys.stderr], and the exit status
    is 1. *)
Theorem unsupported_type_exits (b : BibItem) (m : cr_message) (ty d : str) :
  m_type m = Some ty →
  ty ≠ py "journal-article" →
  doi b = Some d →
  read_journal_information b {| message := Some m |}
  = ([PrintErr (py "The Crossref entry with DOI:"); PrintErr (py "    " ++ d)]
     ++ match arxivid b with
        | Some a => [PrintErr (py "linked to arXiv ID:");
                     PrintErr (py "    " ++ a)]
        | None => []
        end
     ++ [PrintErr (py "has type:");
         PrintErr (py "    " ++ ty);
         PrintErr (py "Currently, only type 'journal-article' is supported.");
         PrintErr (py "You will need to add this entry to your BibTeX file manually.");
         PrintErr (py "Exiting with error.")],
     Raise (SystemExit 1)).
Proof.
  intros Hty Hne Hd. unfold read_journal_information, read_message.
  cbn [message]. rewrite Hty. cbn [item].
  rewrite bind_mret, bool_decide_true by done.
  unfold bad_type_exit. rewrite Hd. by destruct (arxivid b).
Qed.


(** X16. When [read_journal_information] raises [KeyError], the last
    thing that it has printed is the object in which the key was looked
    up last: the message of the response, or the response itself when it
    has no message. *)
Theorem missing_key_prints_payload (b : BibItem) (cr_result : cr_response)
    (t : list event) (k : str) :
  read_journal_information b cr_result = (t, Raise (KeyError k)) →
  last t = Some (match message cr_result with
                 | Some m => PrintMessage m
                 | None => PrintResponse cr_result
                 end).
Proof.
  unfold read_journal_information.
  destruct (message cr_result) as [m|].
  - destruct (read_message b m) as [t0 [a|e]]; [done|].
    destruct e; cbn; intros [= <- _]; try done. apply last_snoc.
  - cbn. by intros [= <- _].
Qed.

End document_reading.

Lemma read_journal_information_example :
  match @read_journal_information (example_settings [])
          (new_BibItem (py "doi:10.1/a") None (Some (py "10.1/a")))
          {| message := Some article_without_volume |} with
  | (t, Ok b') => t = [] ∧ volume b' = present None
  | _ => False
  end.
Proof.
  destruct (@read_journal_information (example_settings [])
              (new_BibItem (py "doi:10.1/a") None (Some (py "10.1/a")))
              {| message := Some article_without_volume |})
    as [t [b'|e]] eqn:E; [|by vm_compute in E].
  destruct (@read_journal_information_populates (example_settings [])
              _ b' _ t E) as [Ht _].
  split; [done|]. vm_compute in E. by injection E as <- <-.
Defined.

Lemma unsupported_type_example :
  @read_journal_information (example_settings [])
    (new_BibItem (py "arXiv:2303.01234") (Some (py "2303.01234"))
       (Some (py "10.1/a")))
    {| message := Some proceedings_article |}
  = ([PrintErr (py "The Crossref entry with DOI:");
      PrintErr (py "    10.1/a");
      PrintErr (py "linked to arXiv ID:");
      PrintErr (py "    2303.01234");
      PrintErr (py "has type:");
      PrintErr (py "    proceedings-article");
      PrintErr (py "Currently, only type 'journal-article' is supported.");
      PrintErr (py "You will need to add this entry to your BibTeX file manually.");
      PrintErr (py "Exiting with error.")],
     Raise (SystemExit 1)).
Proof.
  exact (@unsupported_type_exits (example_settings [])
           (new_BibItem (py "arXiv:2303.01234") (Some (py "2303.01234"))
              (Some (py "10.1/a")))
           proceedings_article (py "proceedings-article") (py "10.1/a")
           eq_refl ltac:(by vm_compute) eq_refl).
Defined.


Lemma missing_key_example :
  last (@read_journal_information (example_settings [])
          (new_BibItem (py "doi:10.1/a") None (Some (py "10.1/a")))
          {| message := None |}).1
  = Some (PrintResponse {| message := None |}).
Proof.
  apply (@missing_key_prints_payload (example_settings [])
           (new_BibItem (py "doi:10.1/a") None (Some (py "10.1/a")))
           {| message := None |} _ (py "message")).
  by vm_compute.
Defined.

(** ** Further properties: rendering a complete record *)

Section rendering.
Context `{!Unicode} `{!Settings}.

Lemma output_opening_returns b eprint_published k :
  bibtex_id b = Some k →
  ∃ rest,
    output_opening b eprint_published
    = (match comment b with Some c => [Print c] | None => [] end
       ++ Print (py "@article{" ++ k ++ py ",") :: rest, Ok tt).
Proof.
  intros Hid. unfold output_opening, generate_bibtexid. rewrite Hid.
  destruct (comment b), (abstract b), (arxivid b), (doi b), eprint_published;
    eexists; reflexivity.
Qed.

Lemma output_journal_returns b :
  journal b = None
  ∨ ((∃ js, journal_short b = present js) ∧ (∃ p, page b = present p)
     ∧ (∃ y, year b = present y) ∧ (∃ v, volume b = present v)
     ∧ (∃ s, suppress_volumewarning b = present s)
     ∧ ∃ t, title b = present t) →
  ∃ trace, output_journal b = (trace, Ok tt).
Proof.
  unfold output_journal.
  intros [-> | ([js ->] & [p ->] & [y ->] & [v ->] & [s ->] & [t ->])];
    [by eexists|].
  destruct (journal b); [|by eexists].
  destruct v, s; eexists; reflexivity.
Qed.

Lemma output_doi_returns b : ∃ trace, output_doi b = (trace, Ok tt).
Proof. unfold output_doi. destruct (doi b); by eexists. Qed.

Lemma print_fields_returns (d : list (str * str)) :
  ∃ trace units,
    mapM (λ kv : str * str,
            emit (Print (py "  " ++ kv.1 ++ py "={" ++ kv.2 ++ py "},"))) d
    = (trace, Ok units).
Proof.
  induction d as [|kv d (trace & units & IH)]; [by exists [], []|].
  cbn [mapM]. rewrite bind_emit, IH. by eexists _, _.
Qed.

Lemma output_closing_returns b l :
  authors b = present l →
  ∃ trace,
    output_closing b = (trace ++ [Print (py "}"); Print (py "")], Ok tt).
Proof.
  intros Hl. unfold output_closing. rewrite Hl.
  destruct (print_fields_returns
              match extra_bibtex_fields b with present d => d | absent => [] end)
    as (trace & units & ->).
  rewrite bind_trace_ok. cbn.
  exists (trace ++ [Print (py "  author={" ++ format_authorlist l ++ py "}")]).
  by rewrite <- app_assoc.
Qed.

Lemma output_title_returns b t :
  title b = present t →
  (∃ v, origcase b = present (Some v)) ∨ split_ws t ≠ [] →
  ∃ trace, output_title b = (trace, Ok tt).
Proof.
  intros Ht Hpolicy. unfold output_title. rewrite Ht.
  destruct (origcase b) as [|[[]|]] eqn:Ho; try (by eexists);
    (destruct Hpolicy as [[v [=]]|Hwords];
     cbn [getattr]; rewrite bind_lift_ok, origcase_heuristic_eq;
     rewrite bool_decide_false by done;
     case_bool_decide; by eexists).
Qed.

Lemma output_bib_returns (b : BibItem) (eprint_published : bool)
    (k t : str) (l : list str) :
  bibtex_id b = Some k →
  title b = present t →
  authors b = present l →
  (∃ v, origcase b = present (Some v)) ∨ split_ws t ≠ [] →
  journal b = None
  ∨ ((∃ js, journal_short b = present js) ∧ (∃ p, page b = present p)
     ∧ (∃ y, year b = present y) ∧ (∃ v, volume b = present v)
     ∧ (∃ s, suppress_volumewarning b = present s)) →
  ∃ body,
    output_bib b eprint_published
    = (match comment b with Some c => [Print c] | None => [] end
       ++ Print (py "@article{" ++ k ++ py ",") :: body
       ++ [Print (py "}"); Print (py "")], Ok tt).
Proof.
  intros Hid Ht Hl Hpolicy Hjournal. unfold output_bib.
  destruct (output_opening_returns b eprint_published k Hid) as [t1 ->].
  destruct (output_journal_returns b) as [t2 ->].
  { destruct Hjournal as [?|(? & ? & ? & ? & ?)]; [by left|right].
    repeat split; by eauto. }
  destruct (output_doi_returns b) as [t3 ->].
  destruct (output_title_returns b t Ht Hpolicy) as [t4 ->].
  destruct (output_closing_returns b l Hl) as [t5 ->].
  rewrite !bind_trace_ok. cbn [fst snd].
  exists (t1 ++ t2 ++ t3 ++ t4 ++ t5).
  rewrite <- !app_assoc. cbn [app]. by rewrite <- ?app_assoc.
Qed.

(** X17. A record with an explicit key, authors, a title that has a word
    or an explicit case policy, and either no journal or every attribute
    of the journal block, is rendered without error: the entry opens with
    the comment, if any, and the line of the key, and closes with the
    brace and an empty line. *)
Theorem complete_record_renders (b : BibItem) (eprint_published : bool)
    (k t : str) (l : list str) :
  bibtex_id b = Some k →
  title b = present t →
  authors b = present l →
  (∃ v, origcase b = present (Some v)) ∨ split_ws t ≠ [] →
  journal b = None
  ∨ ((∃ js, journal_short b = present js) ∧ (∃ p, page b = present p)
     ∧ (∃ y, year b = present y) ∧ (∃ v, volume b = present v)
     ∧ (∃ s, suppress_volumewarning b = present s)) →
  ∃ body,
    output_bib b eprint_published
    = (match comment b with Some c => [Print c] | None => [] end
       ++ Print (py "@article{" ++ k ++ py ",") :: body
       ++ [Print (py "}"); Print (py "")], Ok tt).
Proof.
  intros Hid Ht Hl Hpolicy Hjournal.
  destruct (output_bib_returns b eprint_published k t l) as [body Hbody];
    by eauto.
Qed.

(** X18. A directive with [bibtex_id] that the parser accepts, resolved
    by the document service, is rendered without error whenever the
    title that the service gave has a word. *)
Theorem parsed_and_resolved_renders (line k : str)
    (b0 b : BibItem) (cr_result : cr_response) (trace : list event)
    (eprint_published : bool) :
  parse_line line = Ok b0 →
  bibtex_id b0 = Some k →
  read_journal_information b0 cr_result = (trace, Ok b) →
  (∀ t, title b = present t → split_ws t ≠ []) →
  ∃ printed, output_bib b eprint_published = (printed, Ok tt).
Proof.
  intros Hparse Hid Hread Hwords.
  destruct (parsed_record_has_suppress_volumewarning _ _ Hparse) as [s Hs].
  destruct (read_journal_information_returns _ _ _ _ Hread)
    as (_ & _ & _ & _ & Hid' & _ & _ & _ & Hs' & _ & _ & _ & _ & _
        & [l Hl] & [t Ht] & Hjs & Hy & Hv & Hp).
  destruct (output_bib_returns b eprint_published k t l) as [body ->];
    [by rewrite Hid'|done|done|right; by apply Hwords| |by eauto].
  right. rewrite Hs', Hs. repeat split; by eauto.
Qed.

End rendering.

Lemma complete_record_renders_example :
  ∃ body,
    @output_bib example_tables (example_settings [])
      (with_bibtex_id (py "lovelace1843") (example_record (py "A title"))) true
    = (Print (py "@article{lovelace1843,") :: body
       ++ [Print (py "}"); Print (py "")], Ok tt).
Proof.
  assert (@split_ws example_tables (py "A title") ≠ []) as Hwords
    by (by vm_compute).
  destruct (@complete_record_renders example_tables (example_settings [])
              (with_bibtex_id (py "lovelace1843")
                 (example_record (py "A title")))
              true (py "lovelace1843") (py "A title") [py "Ada Lovelace"]
              eq_refl eq_refl eq_refl
              (or_intror Hwords) (or_introl eq_refl)) as [body Hbody].
  exists body. rewrite Hbody. reflexivity.
Defined.

Lemma parsed_and_resolved_renders_example :
  match @parse_line example_tables (example_settings [])
          (py "doi:10.1/a [bibtex_id:lovelace1843]") with
  | Ok b0 =>
      match @read_journal_information (example_settings []) b0
              {| message := Some article_without_volume |} with
      | (_, Ok b) =>
          ∃ printed,
            @output_bib example_tables (example_settings []) b false
            = (printed, Ok tt)
      | _ => False
      end
  | Raise _ => False
  end.
Proof.
  destruct (@parse_line example_tables (example_settings [])
              (py "doi:10.1/a [bibtex_id:lovelace1843]")) as [b0|e] eqn:E0;
    [|by vm_compute in E0].
  assert (bibtex_id b0 = Some (py "lovelace1843")) as Hid.
  { vm_compute in E0. by injection E0 as <-. }
  destruct (@read_journal_information (example_settings []) b0
              {| message := Some article_without_volume |})
    as [t [b|e]] eqn:E1.
  - refine (@parsed_and_resolved_renders example_tables (example_settings [])
              (py "doi:10.1/a [bibtex_id:lovelace1843]") (py "lovelace1843")
              b0 b {| message := Some article_without_volume |} t false
              E0 Hid E1 _).
    vm_compute in E0. injection E0 as <-.
    vm_compute in E1. injection E1 as <- <-.
    intros t' [= <-]. by vm_compute.
  - vm_compute in E0. injection E0 as <-. by vm_compute in E1.
Defined.

(** ** Further properties: the resolvers on the store *)

(** X19. For a record with a preprint id, [read_arxiv_information]
    always returns: the record keeps its identity and its preprint id,
    takes the authors, the title and the abstract of the response, and is
    marked as populated; its document id is its own when it has one and
    that of the response otherwise; something is printed only when the
    two document ids differ. *)
Theorem preprint_data_merge (b : BibItem) (r : arxivresult) (a : str) :
  arxivid b = Some a →
  ∃ t b',
    read_arxiv_information b r = (t, Ok b')
    ∧ doi b' = match doi b with Some d => Some d | None => ar_doi r end
    ∧ canonical_id b' = canonical_id b
    ∧ arxivid b' = Some a
    ∧ authors b' = present (ar_authors r)
    ∧ title b' = present (ar_title r)
    ∧ abstract b' = Some (ar_summary r)
    ∧ arxiv_populated b' = true
    ∧ (t ≠ [] ↔ ∃ mine theirs,
         doi b = Some mine ∧ ar_doi r = Some theirs ∧ mine ≠ theirs).
Proof.
  intros Ha. unfold read_arxiv_information. rewrite Ha.
  destruct (doi b) as [mine|] eqn:Hmine, (ar_doi r) as [theirs|] eqn:Htheirs.
  - case_bool_decide as Hne.
    + eexists _, _. split; [reflexivity|]. cbn. repeat split; try done.
      intros _. by exists mine, theirs.
    + subst theirs.
      eexists _, _. split; [reflexivity|]. cbn. repeat split; try done.
      intros (? & ? & [= <-] & [= <-] & Hne). done.
  - eexists _, _. split; [reflexivity|]. cbn. repeat split; try done.
    intros (? & ? & _ & [=] & _).
  - eexists _, _. split; [reflexivity|]. cbn. repeat split; try done.
    intros (? & ? & [=] & _).
  - eexists _, _. split; [reflexivity|]. cbn. repeat split; try done.
    intros (? & ? & [=] & _).
Qed.

Lemma preprint_data_merge_example :
  ∃ t b',
    read_arxiv_information
      (new_BibItem (py "arXiv:2303.01234") (Some (py "2303.01234")) None)
      {| ar_authors := [py "Ada Lovelace"];
         ar_title := py "A title";
         ar_summary := py "An abstract.";
         ar_doi := Some (py "10.1/b") |}
    = (t, Ok b')
    ∧ doi b' = Some (py "10.1/b")
    ∧ canonical_id b' = py "arXiv:2303.01234".
Proof.
  destruct (preprint_data_merge
              (new_BibItem (py "arXiv:2303.01234") (Some (py "2303.01234")) None)
              {| ar_authors := [py "Ada Lovelace"];
                 ar_title := py "A title";
                 ar_summary := py "An abstract.";
                 ar_doi := Some (py "10.1/b") |}
              (py "2303.01234") eq_refl)
    as (t & b' & Hread & Hdoi & Hid & _).
  by exists t, b'.
Defined.

Lemma read_all_inv {R} (read : BibItem → R → M BibItem) (P : BibItem → Prop) :
  (∀ b r t b', read b r = (t, Ok b') → P b') →
  ∀ pairs h t h',
    read_all read h pairs = (t, Ok h') →
    length h' = length h
    ∧ (∀ i, i ∉ pairs.*1 → h' !! i = h !! i)
    ∧ (∀ i, i ∈ pairs.*1 → (i < length h)%nat →
            ∃ b', h' !! i = Some b' ∧ P b').
Proof.
  intros Hread. induction pairs as [|[r x] pairs IH]; intros h t h' Hall.
  - injection Hall as <- <-. split; [done|]. split; [done|].
    by intros i Hi%elem_of_nil.
  - cbn [read_all] in Hall. destruct (h !! r) as [b|] eqn:Hr.
    + apply bind_ok_inv in Hall as (t1 & b1 & t2 & Hb1 & Hrest & ->).
      destruct (IH _ _ _ Hrest) as (Hlen & Hout & Hin).
      rewrite length_insert in Hlen, Hin.
      split; [done|]. split.
      * intros i [Hne Hi]%not_elem_of_cons. rewrite Hout by done.
        by apply list_lookup_insert_ne.
      * intros i Hi Hlt. destruct (decide (i ∈ pairs.*1)) as [Hi'|Hi'].
        { by apply Hin. }
        apply elem_of_cons in Hi as [->|Hi]; [|done].
        exists b1. split; [|by eapply Hread].
        rewrite Hout by done. by apply list_lookup_insert_eq.
    + destruct (IH _ _ _ Hall) as (Hlen & Hout & Hin).
      split; [done|]. split.
      * intros i [Hne Hi]%not_elem_of_cons. by apply Hout.
      * intros i [->|Hi]%elem_of_cons Hlt; [|by apply Hin].
        apply lookup_ge_None in Hr. cbn in Hlt. lia.
Qed.

Lemma filter_all_false {A} (f : A → bool) (l : list A) :
  (∀ x, x ∈ l → f x = false) → List.filter f l = [].
Proof.
  induction l as [|x l IH]; intros Hl; [done|]. cbn [List.filter].
  rewrite (Hl x) by (apply elem_of_cons; by left).
  apply IH. intros y Hy. apply Hl, elem_of_cons. by right.
Qed.

Lemma elem_of_filter_bool {A} (f : A → bool) (l : list A) x :
  x ∈ List.filter f l ↔ x ∈ l ∧ f x = true.
Proof. rewrite !list_elem_of_In. apply filter_In. Qed.

Section idempotence.
Context `{!Unicode} `{!Settings} `{!Services}.

Lemma pending_arxiv_ids_length h refs :
  length (omap (λ r, h !! r ≫= arxivid) (List.filter (pending_arxiv h) refs))
  = length (List.filter (pending_arxiv h) refs).
Proof.
  induction refs as [|r refs IH]; [done|]. cbn [List.filter].
  destruct (pending_arxiv h r) eqn:E; [|done].
  cbn [omap list_omap]. unfold pending_arxiv in E.
  destruct (h !! r) as [b|]; [|done]. cbn.
  apply andb_prop in E as [[a Ha]%bool_decide_eq_true _].
  rewrite Ha. cbn. by rewrite <- IH.
Qed.

Lemma read_arxiv_information_flag b r t b' :
  read_arxiv_information b r = (t, Ok b') → arxiv_populated b' = true.
Proof.
  unfold read_arxiv_information.
  destruct (doi b), (ar_doi r); try case_bool_decide; try destruct (arxivid b);
    cbn; intros [= _ <-]; done.
Qed.

(** X20. After the preprint resolver has returned, no record of the list
    is pending any more: run again on the store that it left, it queries
    nothing and changes nothing. The store keeps its size. *)
Theorem populate_arxiv_information_once (h h' : list BibItem)
    (refs : list nat) (t : list event) :
  populate_arxiv_information h refs = (t, Ok h') →
  populate_arxiv_information h' refs = ([], Ok h')
  ∧ length h' = length h.
Proof.
  intros Hrun.
  assert (length h' = length h
          ∧ ∀ r, r ∈ refs → pending_arxiv h' r = false) as [Hlen Hdone].
  { unfold populate_arxiv_information in Hrun. cbv zeta in Hrun.
    pose proof (pending_arxiv_ids_length h refs) as Hids.
    pose proof (λ r, proj1 (elem_of_filter_bool (pending_arxiv h) refs r))
      as Hpending.
    set (pending := List.filter (pending_arxiv h) refs) in *.
    set (ids := omap _ pending) in *.
    case_bool_decide as Hempty.
    - injection Hrun as <- <-. split; [done|]. intros r Hr.
      destruct (pending_arxiv h r) eqn:E; [|done].
      assert (r ∈ pending) as Hin by (by apply elem_of_filter_bool).
      assert (pending = []) as Hnil by (apply nil_length_inv; lia).
      rewrite Hnil in Hin. by apply elem_of_nil in Hin.
    - apply bind_ok_inv in Hrun as (t1 & [] & t2 & _ & Hrun & ->).
      apply bind_ok_inv in Hrun as (t3 & results & t4 & _ & Hrun & ->).
      case_bool_decide as Hcount; [done|].
      destruct (read_all_inv read_arxiv_information
                  (λ b, arxiv_populated b = true)
                  read_arxiv_information_flag _ _ _ _ Hrun)
        as (Hlen & Hout & Hin).
      rewrite fst_zip in Hout, Hin by lia.
      split; [done|]. intros r Hr. unfold pending_arxiv at 1.
      destruct (pending_arxiv h r) eqn:E.
      + assert (r ∈ pending) as Hrp by (by apply elem_of_filter_bool).
        destruct (Hin r Hrp) as (b' & -> & ->).
        * unfold pending_arxiv in E. destruct (h !! r) eqn:Hr'; [|done].
          by eapply lookup_lt_Some.
        * by rewrite andb_false_r.
      + rewrite Hout.
        * by unfold pending_arxiv in E.
        * intros Hrp%Hpending. destruct Hrp as [_ Hrp]. congruence. }
  split; [|done]. unfold populate_arxiv_information.
  rewrite (filter_all_false _ _ Hdone). by cbn.
Qed.

Lemma crossref_read_loop_length dois : ∀ t results,
  crossref_read_loop dois = (t, Ok results) → length results = length dois.
Proof.
  induction dois as [|d dois IH]; intros t results.
  - by intros [= _ <-].
  - rewrite crossref_read_loop_cons. destruct (cr_works [d]); [|done].
    destruct (crossref_read_loop dois) as [t' [results'|e]]; [|done].
    cbn. intros [= _ <-]. cbn. f_equal. by eapply IH.
Qed.

Lemma crossref_read_length dois t results :
  dois ≠ [] →
  crossref_read dois = (t, Ok (Listed results)) →
  length results = length dois.
Proof.
  intros Hdois. unfold crossref_read, chunk_size. case_bool_decide as Hlen.
  - destruct dois as [|d [|d' dois]]; [done| |cbn in Hlen; lia].
    unfold crossref_read_chunk. rewrite bind_emit.
    destruct (cr_works [d]); [|done]. by intros [= _ <-].
  - intros (t1 & [] & t2 & _ & Hrun & ->)%bind_ok_inv.
    apply bind_ok_inv in Hrun as (t3 & results' & t4 & Hloop & Hret & ->).
    injection Hret as _ <-. by eapply crossref_read_loop_length.
Qed.

Lemma read_journal_information_flag b r t b' :
  read_journal_information b r = (t, Ok b') → doi_populated b' = true.
Proof.
  intros (_ & Hpop)%read_journal_information_returns.
  unfold document_populated_from in Hpop. tauto.
Qed.

(** X21. After the document resolver has returned, no record of the list
    is pending any more: run again on the store that it left, it submits
    nothing and changes nothing. The store keeps its size. *)
Theorem populate_doi_information_once (h h' : list BibItem)
    (refs : list nat) (t : list event) :
  populate_doi_information h refs = (t, Ok h') →
  populate_doi_information h' refs = ([], Ok h')
  ∧ length h' = length h.
Proof.
  intros Hrun.
  assert (length h' = length h
          ∧ ∀ r, r ∈ refs → pending_doi h' r = false) as [Hlen Hdone].
  { unfold populate_doi_information in Hrun. cbv zeta in Hrun.
    pose proof (pending_dois_length h refs) as Hids.
    pose proof (λ r, proj1 (elem_of_filter_bool (pending_doi h) refs r))
      as Hpending.
    set (pending := List.filter (pending_doi h) refs) in *.
    set (dois := omap _ pending) in *.
    case_bool_decide as Hempty.
    - injection Hrun as <- <-. split; [done|]. intros r Hr.
      destruct (pending_doi h r) eqn:E; [|done].
      assert (r ∈ pending) as Hin by (by apply elem_of_filter_bool).
      assert (pending = []) as Hnil by (apply nil_length_inv; lia).
      rewrite Hnil in Hin. by apply elem_of_nil in Hin.
    - apply bind_ok_inv in Hrun as (t1 & [resp|results] & t2 & Hread & Hrun & ->);
        [done|].
      apply crossref_read_length in Hread; [|by destruct dois].
      destruct (read_all_inv read_journal_information
                  (λ b, doi_populated b = true)
                  read_journal_information_flag _ _ _ _ Hrun)
        as (Hlen & Hout & Hin).
      rewrite fst_zip in Hout, Hin by lia.
      split; [done|]. intros r Hr. unfold pending_doi at 1.
      destruct (pending_doi h r) eqn:E.
      + assert (r ∈ pending) as Hrp by (by apply elem_of_filter_bool).
        destruct (Hin r Hrp) as (b' & -> & ->).
        * unfold pending_doi in E. destruct (h !! r) eqn:Hr'; [|done].
          by eapply lookup_lt_Some.
        * by rewrite andb_false_r.
      + rewrite Hout.
        * by unfold pending_doi in E.
        * intros Hrp%Hpending. destruct Hrp as [_ Hrp]. congruence. }
  split; [|done]. unfold populate_doi_information.
  rewrite (filter_all_false _ _ Hdone). by cbn.
Qed.

End idempotence.

Lemma populate_arxiv_information_once_example :
  match @populate_arxiv_information (example_services (py "A title"))
          two_preprints [0; 1]%nat with
  | (_, Ok h') =>
      @populate_arxiv_information (example_services (py "A title"))
        h' [0; 1]%nat = ([], Ok h')
  | _ => False
  end.
Proof.
  destruct (@populate_arxiv_information (example_services (py "A title"))
              two_preprints [0; 1]%nat) as [t [h'|e]] eqn:E;
    [|by vm_compute in E].
  apply (@populate_arxiv_information_once (example_services (py "A title"))
           two_preprints h' [0; 1]%nat t E).
Defined.

Lemma populate_doi_information_once_example :
  match @populate_doi_information (example_settings [])
          (example_document_services article_with_volume)
          [new_BibItem (py "doi:10.1/a") None (Some (py "10.1/a"))]
          [0; 0]%nat with
  | (_, Ok h') =>
      @populate_doi_information (example_settings [])
        (example_document_services article_with_volume) h' [0; 0]%nat
      = ([], Ok h')
  | _ => False
  end.
Proof.
  destruct (@populate_doi_information (example_settings [])
              (example_document_services article_with_volume)
              [new_BibItem (py "doi:10.1/a") None (Some (py "10.1/a"))]
              [0; 0]%nat) as [t [h'|e]] eqn:E;
    [|by vm_compute in E].
  apply (@populate_doi_information_once (example_settings [])
           (example_document_services article_with_volume)
           _ h' [0; 0]%nat t E).
Defined.

(** ** Further properties: the requests to the document service *)

Section requests.
Context `{!Services}.

Lemma crossref_read_loop_all dois responses :
  Forall2 (λ d r, cr_works [d] = Returns r) dois responses →
  crossref_read_loop dois
  = (dois ≫= λ d, [CrossrefWorks [d]; Sleep], Ok responses).
Proof.
  induction 1 as [|d r dois responses Hd _ IH]; [done|].
  by rewrite crossref_read_loop_cons, Hd, IH.
Qed.

Lemma crossref_read_loop_stops before responses d later args :
  Forall2 (λ d r, cr_works [d] = Returns r) before responses →
  cr_works [d] = Fails args →
  crossref_read_loop (before ++ d :: later)
  = ((before ≫= λ d, [CrossrefWorks [d]; Sleep]) ++ [CrossrefWorks [d]],
     Raise (ServiceError args)).
Proof.
  intros Hbefore Hd.
  induction Hbefore as [|d' r before responses Hd' _ IH].
  - cbn [app]. by rewrite crossref_read_loop_cons, Hd.
  - cbn [app]. by rewrite crossref_read_loop_cons, Hd', IH.
Qed.

(** X22. When the service answers every id, [crossref_read] of two ids or
    more submits them one by one in order, pauses after each, announces
    the wait and shows a progress bar when there are more than five, and
    returns the answers in the order of the ids; a single id is submitted
    alone, without pause. *)
Theorem crossref_read_all_answered (dois : list str)
    (responses : list cr_response) :
  Forall2 (λ d r, cr_works [d] = Returns r) dois responses →
  (2 ≤ length dois →
   crossref_read dois
   = ((if bool_decide (5 < length dois)
       then [PrintErr (py "Retrieving Crossref data (might take a while)...");
             ProgressBar (length dois)]
       else [])
      ++ (dois ≫= λ d, [CrossrefWorks [d]; Sleep]),
      Ok (Listed responses)))%nat
  ∧ (length dois = 1%nat →
     crossref_read dois = ([CrossrefWorks dois], Ok (Listed responses))).
Proof.
  intros Hall. unfold crossref_read, chunk_size. split.
  - intros Hlen. rewrite bool_decide_false by lia.
    rewrite (crossref_read_loop_all _ _ Hall).
    case_bool_decide; cbn; by rewrite app_nil_r.
  - intros Hlen. rewrite bool_decide_true by lia.
    destruct Hall as [|d r dois responses Hd Hrest]; [done|].
    destruct Hrest; [|cbn in Hlen; lia].
    unfold crossref_read_chunk. by rewrite bind_emit, Hd.
Qed.

(** X23. When the service fails on an id, [crossref_read] of two ids or
    more stops there: the ids after it are not submitted, no pause
    follows the failed request, and the exception of the service is
    raised. *)
Theorem crossref_read_stops_at_failure (before later : list str) (d : str)
    (responses : list cr_response) (args : list str) :
  Forall2 (λ d r, cr_works [d] = Returns r) before responses →
  cr_works [d] = Fails args →
  (2 ≤ length (before ++ d :: later))%nat →
  crossref_read (before ++ d :: later)
  = ((if bool_decide (5 < length (before ++ d :: later))%nat
      then [PrintErr (py "Retrieving Crossref data (might take a while)...");
            ProgressBar (length (before ++ d :: later))]
      else [])
     ++ (before ≫= λ d, [CrossrefWorks [d]; Sleep]) ++ [CrossrefWorks [d]],
     Raise (ServiceError args)).
Proof.
  intros Hbefore Hd Hlen. unfold crossref_read, chunk_size.
  rewrite bool_decide_false by lia.
  rewrite (crossref_read_loop_stops _ _ _ _ _ Hbefore Hd).
  by case_bool_decide.
Qed.

End requests.

Lemma crossref_read_all_answered_example :
  @crossref_read (example_document_services article_with_volume)
    [py "10.1/a"; py "10.1/b"]
  = ([CrossrefWorks [py "10.1/a"]; Sleep; CrossrefWorks [py "10.1/b"]; Sleep],
     Ok (Listed [ {| message := Some article_with_volume |};
                  {| message := Some article_with_volume |} ])).
Proof.
  apply (proj1 (@crossref_read_all_answered
                  (example_document_services article_with_volume)
                  [py "10.1/a"; py "10.1/b"]
                  [ {| message := Some article_with_volume |};
                    {| message := Some article_with_volume |} ]
                  ltac:(repeat constructor))).
  cbn. lia.
Defined.

Lemma crossref_read_stops_at_failure_example :
  @crossref_read (example_services (py "A title"))
    [py "10.1/a"; py "10.1/b"]
  = ([CrossrefWorks [py "10.1/a"]],
     Raise (ServiceError [py "Service Unavailable"])).
Proof.
  apply (@crossref_read_stops_at_failure (example_services (py "A title"))
           [] [py "10.1/b"] (py "10.1/a") [] [py "Service Unavailable"]
           ltac:(constructor) eq_refl).
  cbn. lia.
Defined.

(** ** Further properties: the reverse extractor *)

Lemma printed_lines_app t1 t2 :
  printed_lines (t1 ++ t2) = printed_lines t1 ++ printed_lines t2.
Proof. apply omap_app. Qed.

Lemma returns_with_bind {A B} (m : M A) (f : A → M B) P :
  (∀ t a, m = (t, Ok a) → returns_with (f a) P) →
  returns_with (m ≫= f) P.
Proof.
  intros Hf t b (t1 & a & t2 & H1 & H2 & ->)%bind_ok_inv.
  by eapply Hf.
Qed.

Lemma returns_with_mret {A} (a : A) (P : A → Prop) :
  P a → returns_with (mret a : M A) P.
Proof. by intros Ha t a' [= _ <-]. Qed.

Section extractor_shape.
Context `{!Unicode} `{!bibextract.Lookups}.

Lemma getitem_inv entry key t v :
  bibextract.getitem entry key = (t, Ok v) →
  t = [] ∧ entry !! py key = Some v.
Proof.
  unfold bibextract.getitem. destruct (entry !! py key); [|done].
  by intros [= <- <-].
Qed.

Lemma process_entry_stderr_only entry :
  printed_lines (bibextract.process_entry entry).1 = [].
Proof.
  assert (∀ A B (m : M A) (f : A → M B),
            printed_lines m.1 = [] → (∀ a, printed_lines (f a).1 = []) →
            printed_lines (m ≫= f).1 = []) as Hbind.
  { intros A B [t [a|e]] f Hm Hf; [|done]. rewrite bind_trace_ok.
    cbn [fst] in *. by rewrite printed_lines_app, Hm, Hf. }
  unfold bibextract.process_entry, bibextract.getitem.
  repeat first
    [ apply Hbind; [|intros ?]
    | done
    | match goal with
      | |- printed_lines (if ?x then _ else _).1 = [] => destruct x
      | |- printed_lines (match ?x with _ => _ end).1 = [] => destruct x
      | |- printed_lines (item _ ?x).1 = [] => destruct x
      end ].
Qed.

Lemma process_entry_line entry t line :
  bibextract.process_entry entry = (t, Ok (Some line)) →
  ∃ id_ k, entry !! py "ID" = Some k
           ∧ line = id_ ++ py " [bibtex_id:" ++ k ++ py "]".
Proof.
  assert (returns_with (bibextract.process_entry entry)
            (λ r, ∀ l, r = Some l →
                       ∃ id_ k, entry !! py "ID" = Some k
                                ∧ l = id_ ++ py " [bibtex_id:" ++ k ++ py "]"))
    as Hshape.
  { unfold bibextract.process_entry.
    repeat first
      [ apply returns_with_mret
      | apply returns_with_bind; intros ? ? ?
      | match goal with
        | |- returns_with (if ?x then _ else _) _ => destruct x
        | |- returns_with (match ?x with _ => _ end) _ => destruct x
        end ];
      try (by intros l [=]).
    all: intros l [= <-];
      match goal with
      | H : bibextract.getitem _ "ID" = _ |- _ =>
          apply getitem_inv in H as [_ H]
      end; by eauto. }
  intros Hrun. by apply (Hshape t (Some line) Hrun).
Qed.

Lemma process_entries_partition entries : ∀ t kept lines,
  bibextract.process_entries entries = (t, Ok (kept, lines)) →
  kept `sublist_of` entries
  ∧ (length kept + length lines = length entries)%nat
  ∧ printed_lines t = [].
Proof.
  induction entries as [|entry entries IH]; intros t kept lines.
  - intros [= <- <- <-]. by split.
  - cbn [bibextract.process_entries].
    intros (t1 & line & t2 & Hentry & Hrest & ->)%bind_ok_inv.
    apply bind_ok_inv in Hrest as (t3 & [kept' lines'] & t4 & Hrest & Hret & ->).
    destruct (IH _ _ _ Hrest) as (Hsub & Hlen & Hquiet).
    pose proof (process_entry_stderr_only entry) as Hq. rewrite Hentry in Hq.
    cbn [fst] in Hq.
    destruct line as [line|]; cbn in Hret; injection Hret as <- <- <-.
    + rewrite !printed_lines_app, Hq, Hquiet. split; [by apply sublist_cons|].
      split; [cbn; lia|done].
    + rewrite !printed_lines_app, Hq, Hquiet. split; [by apply sublist_skip|].
      split; [cbn; lia|done].
Qed.

Lemma print_lines_trace (lines : list str) :
  ∃ units, mapM (λ line, emit (Print line)) lines = (Print <$> lines, Ok units).
Proof.
  induction lines as [|line lines [units IH]]; [by exists []|].
  cbn [mapM]. rewrite bind_emit, IH, bind_trace_ok. cbn.
  rewrite app_nil_r. by eexists.
Qed.

(** X24. When [process] returns, every entry of the database has either
    been kept, in its place among the kept ones, or given exactly one
    line of the output: the entries that are left are a sublist of the
    entries, and the lines printed and the entries left add up to the
    number of entries. *)
Theorem process_partitions_the_database (entries kept : list (gmap str str))
    (t : list event) :
  bibextract.process entries = (t, Ok kept) →
  kept `sublist_of` entries
  ∧ (length kept + length (printed_lines t) = length entries)%nat.
Proof.
  unfold bibextract.process.
  intros (t1 & [kept' lines] & t2 & Hentries & Hrest & ->)%bind_ok_inv.
  destruct (process_entries_partition _ _ _ _ Hentries) as (Hsub & Hlen & Hq).
  cbn [fst snd] in Hrest.
  destruct (print_lines_trace lines) as [units Hprint].
  rewrite Hprint, bind_trace_ok in Hrest. cbn [fst snd mret M_ret] in Hrest.
  injection Hrest as <- <-.
  assert (printed_lines (Print <$> lines) = lines) as Hlines.
  { clear. induction lines as [|l lines IH]; [done|]. cbn. f_equal. exact IH. }
  by rewrite !printed_lines_app, Hq, Hlines, app_nil_r.
Qed.

(** X25. A line that [process_entry] makes is an identifier followed by
    the id of the entry as [bibtex_id] option. *)
Theorem extracted_line_shape (entry : gmap str str) (t : list event)
    (line : str) :
  bibextract.process_entry entry = (t, Ok (Some line)) →
  ∃ id_ k, entry !! py "ID" = Some k
           ∧ line = id_ ++ py " [bibtex_id:" ++ k ++ py "]".
Proof. apply process_entry_line. Qed.

End extractor_shape.

Lemma process_partitions_example :
  match @bibextract.process example_tables match_without_preprint
          [example_entry; <[py "ENTRYTYPE" := py "book"]> example_entry] with
  | (t, Ok kept) =>
      (length kept + length (printed_lines t) = 2)%nat
  | _ => False
  end.
Proof.
  destruct (@bibextract.process example_tables match_without_preprint
              [example_entry; <[py "ENTRYTYPE" := py "book"]> example_entry])
    as [t [kept|e]] eqn:E; [|by vm_compute in E].
  apply (@process_partitions_the_database example_tables
           match_without_preprint _ kept t E).
Defined.

Lemma extracted_line_shape_example :
  ∃ id_ k,
    example_entry !! py "ID" = Some k
    ∧ py "doi:10.1/a [bibtex_id:lovelace1843]"
      = id_ ++ py " [bibtex_id:" ++ k ++ py "]".
Proof.
  apply (@extracted_line_shape example_tables match_without_preprint
           example_entry
           [PrintErr (py "WARNING: No arXiv ID found for DOI: 10.1/a")]).
  by vm_compute.
Defined.

(** ** Further properties: from the extractor back to the parser *)

Section round_trip.
Context `{!Unicode} `{!Settings}.

Lemma drop_while_head (s : str) :
  (∀ c, head s = Some c → isspace c = false) → drop_while isspace s = s.
Proof.
  destruct s as [|c s]; [done|]. intros Hc. cbn [drop_while].
  by rewrite (Hc c).
Qed.

Lemma strip_fixed (s : str) :
  (∀ c, head s = Some c → isspace c = false) →
  (∀ c, last s = Some c → isspace c = false) →
  strip s = s.
Proof.
  intros Hhead Hlast. unfold strip.
  rewrite (drop_while_head s Hhead), drop_while_head.
  - apply reverse_involutive.
  - intros c. rewrite head_reverse. apply Hlast.
Qed.

Lemma strip_trailing_blank (s : str) (x : char) :
  Forall (λ c, isspace c = false) s → isspace x = true →
  strip (s ++ [x]) = s.
Proof.
  intros Hs Hx. unfold strip. destruct Hs as [|c s Hc Hs].
  - cbn. by rewrite Hx.
  - rewrite (drop_while_head ((c :: s) ++ [x])) by (cbn; by intros ? [= <-]).
    rewrite reverse_snoc. cbn [drop_while]. rewrite Hx.
    rewrite drop_while_head; [apply reverse_involutive|].
    intros c'. rewrite head_reverse. intros Hc'%last_Some_elem_of.
    apply elem_of_cons in Hc' as [->|Hc']; [done|].
    by eapply Forall_forall in Hs.
Qed.

Lemma id_char_spec c :
  id_char c = true → plain_char c = true ∧ isspace c = false.
Proof.
  unfold id_char. intros [H1 H2]%andb_prop. by apply negb_true_iff in H2.
Qed.

Lemma key_char_spec c :
  key_char c = true →
  id_char c = true ∧ N.eqb (ch ",") c = false ∧ N.eqb (ch ":") c = false.
Proof.
  unfold key_char. intros [[H1 H2]%andb_prop H3]%andb_prop.
  apply negb_true_iff in H2, H3. by rewrite (N.eqb_sym _ c), (N.eqb_sym _ c).
Qed.

(** X26. A line of the form that the extractor writes, an identifier and
    [ [bibtex_id:KEY]], is accepted by the parser when identifier and key
    are free of blanks, brackets and backslashes and the key of commas
    and colons: the record has the key, and the identifier as document id
    when it begins with [doi:] and as preprint id otherwise. *)
Theorem extracted_directive_parses (id_ k : str) :
  blank_is_space →
  Forall (λ c, id_char c = true) id_ →
  Forall (λ c, key_char c = true) k →
  ∃ b, parse_line (id_ ++ py " [bibtex_id:" ++ k ++ py "]") = Ok b
       ∧ bibtex_id b = Some k
       ∧ arxivid b = main_arxivid id_
       ∧ doi b = main_doi id_.
Proof.
  intros (Hblank & Hb & Hcolon) Hid Hk.
  assert (Forall (λ c, plain_char c = true) (id_ ++ [ch " "])) as Hmain.
  { apply Forall_app. split; [|by repeat constructor].
    eapply Forall_impl; [exact Hid|]. by intros c [? _]%id_char_spec. }
  assert (Forall (λ c, plain_char c = true) (py "bibtex_id:" ++ k)) as Hopts.
  { apply Forall_app. split; [by vm_compute; repeat constructor|].
    eapply Forall_impl; [exact Hk|].
    by intros c [[? _]%id_char_spec _]%key_char_spec. }
  assert (re_split_brackets false (id_ ++ py " [bibtex_id:" ++ k ++ py "]")
          = [id_ ++ [ch " "]; py "bibtex_id:" ++ k; []]) as Hsplit.
  { change (id_ ++ py " [bibtex_id:" ++ k ++ py "]")
      with (id_ ++ [ch " "] ++ ch "[" :: (py "bibtex_id:" ++ k) ++ ch "]" :: []).
    rewrite app_assoc.
    by rewrite !re_split_brackets_at by done. }
  assert (strip (py "bibtex_id:" ++ k) = py "bibtex_id:" ++ k) as Hstrip.
  { apply strip_fixed.
    - intros c [= <-]. exact Hb.
    - intros c. rewrite last_app. destruct (last k) as [y|] eqn:Hy.
      + intros [= <-]. apply last_Some_elem_of in Hy.
        eapply Forall_forall in Hk; [|done].
        by apply key_char_spec in Hk as [[_ ?]%id_char_spec _].
      + intros [= <-]. exact Hcolon. }
  assert (split_on (ch ":") (py "bibtex_id:" ++ k) = [py "bibtex_id"; k])
    as Hkv.
  { change (py "bibtex_id:" ++ k) with (py "bibtex_id" ++ ch ":" :: k).
    unfold split_on.
    rewrite split_when_app by (by vm_compute; repeat constructor).
    rewrite split_when_none; [done|].
    eapply Forall_impl; [exact Hk|]. by intros c (_ & _ & ?)%key_char_spec. }
  assert (split_on (ch ",") (py "bibtex_id:" ++ k) = [py "bibtex_id:" ++ k])
    as Hcomma.
  { apply split_when_none, Forall_app.
    split; [by vm_compute; repeat constructor|].
    eapply Forall_impl; [exact Hk|]. by intros c (_ & ? & _)%key_char_spec. }
  unfold parse_line, main_of, options_of. rewrite Hsplit.
  cbn [head default from_option id].
  rewrite strip_trailing_blank, Hcomma; [|clear -Hid|done].
  2: { eapply Forall_impl; [exact Hid|]. by intros c [_ ?]%id_char_spec. }
  cbn [process_opts]. unfold process_opt. rewrite Hstrip, Hkv.
  cbn [index lookup list_lookup mbind result_bind].
  unfold apply_option.
  rewrite (bool_decide_false (py "bibtex_id" = py "doi")) by done.
  rewrite (bool_decide_true (py "bibtex_id" = py "bibtex_id")) by done.
  cbn [mbind result_bind]. unfold build_bibitem, BibItem_init.
  cbn [p_doi initial_state].
  unfold main_arxivid, main_doi.
  case_bool_decide; cbn; eexists; by repeat split.
Qed.

End round_trip.

Lemma extracted_directive_parses_example :
  ∃ b, @parse_line example_tables (example_settings [])
         (py "doi:10.1/a [bibtex_id:lovelace1843]") = Ok b
       ∧ bibtex_id b = Some (py "lovelace1843")
       ∧ doi b = Some (py "10.1/a").
Proof.
  destruct (@extracted_directive_parses example_tables (example_settings [])
              (py "doi:10.1/a") (py "lovelace1843"))
    as (b & Hb & Hkey & _ & Hdoi).
  - by vm_compute.
  - vm_compute. repeat constructor.
  - vm_compute. repeat constructor.
  - by exists b.
Defined.

(** ** Further properties: the objects of a file of directives *)

Section lines_of_a_file.
Context `{!Unicode} `{!Settings}.

Lemma init_from_input_file_line_facts (w w' : world) line r :
  init_from_input_file_line w line = Ok (r, w') →
  cache w' !! line = Some r
  ∧ cache w ⊆ cache w'
  ∧ (cache_in_heap w → cache_in_heap w').
Proof.
  unfold init_from_input_file_line.
  destruct (cache w !! line) as [r0|] eqn:Hcache.
  - by intros [= -> ->].
  - destruct (parse_line line) as [b|e]; cbn; [|done].
    intros [= <- <-]. cbn [cache heap]. split; [apply lookup_insert_eq|].
    split; [by apply insert_subseteq|].
    intros Hwf line' r'. cbn [cache heap].
    rewrite lookup_insert, length_app. cbn.
    case_decide; [intros [= <-]; lia|]. intros Hr'%Hwf. lia.
Qed.

Lemma init_from_lines_facts lines : ∀ (w w' : world) refs,
  init_from_lines w lines = Ok (refs, w') →
  Forall2 (λ line r, cache w' !! line = Some r)
          (List.filter (λ line, bool_decide (strip line ≠ [])) lines) refs
  ∧ cache w ⊆ cache w'
  ∧ (cache_in_heap w → cache_in_heap w').
Proof.
  induction lines as [|line lines IH]; intros w w' refs; cbn [init_from_lines].
  - intros [= <- <-]. by split.
  - cbn [List.filter]. destruct (bool_decide (strip line ≠ [])).
    + destruct (init_from_input_file_line w line) as [[r w1]|e] eqn:Hline;
        cbn; [|done].
      destruct (init_from_lines w1 lines) as [[rs w2]|e] eqn:Hrest;
        cbn; [|done].
      intros [= <- <-].
      destruct (init_from_input_file_line_facts _ _ _ _ Hline)
        as (Hr & Hsub1 & Hwf1).
      destruct (IH _ _ _ Hrest) as (Hrs & Hsub2 & Hwf2).
      split; [|split].
      * constructor; [|done]. by eapply lookup_weaken.
      * by etrans.
      * by intros ?%Hwf1%Hwf2.
    + apply IH.
Qed.

(** X27. The objects made from the lines of a file: the blank lines give
    none; every other line gives the object that the cache names for it
    at the end, so that two lines with the same text give one and the
    same object; and when the cache only named objects of the store
    before, every object returned is in the store. *)
Theorem init_from_lines_objects (w w' : world) (lines : list str)
    (refs : list nat) :
  init_from_lines w lines = Ok (refs, w') →
  Forall2 (λ line r, cache w' !! line = Some r)
          (List.filter (λ line, bool_decide (strip line ≠ [])) lines) refs
  ∧ (cache_in_heap w →
     cache_in_heap w' ∧ Forall (λ r, r < length (heap w'))%nat refs).
Proof.
  intros (Hrefs & _ & Hwf)%init_from_lines_facts. split; [done|].
  intros Hw%Hwf. split; [done|].
  induction Hrefs as [|line r ls rs Hr _ IH]; constructor; [|done].
  by eapply Hw.
Qed.

End lines_of_a_file.

Lemma init_from_lines_objects_example :
  match @init_from_lines example_tables (example_settings []) empty_world
          [py "2303.01234" ++ [10]; [10]; py "2303.01234" ++ [10]] with
  | Ok (refs, w') =>
      Forall2 (λ line r, cache w' !! line = Some r)
              [py "2303.01234" ++ [10]; py "2303.01234" ++ [10]] refs
  | Raise _ => False
  end.
Proof.
  destruct (@init_from_lines example_tables (example_settings []) empty_world
              [py "2303.01234" ++ [10]; [10]; py "2303.01234" ++ [10]])
    as [[refs w']|e] eqn:E; [|by vm_compute in E].
  apply (proj1 (@init_from_lines_objects example_tables (example_settings [])
                  empty_world w' _ refs E)).
Defined.

(** ** Further properties: the family name of the first author *)

Lemma split_when_single p s w :
  split_when p s = [w] → s = w ∧ Forall (λ c, p c = false) w.
Proof.
  revert w. induction s as [|c s IH]; intros w; cbn [split_when].
  - by intros [= <-].
  - destruct (p c) eqn:Hc.
    + destruct (split_when_cons p s) as (w' & ws & ->). done.
    + destruct (split_when_cons p s) as (w' & ws & Hs). rewrite Hs in *.
      destruct ws; [|done].
      intros [= <-]. destruct (IH w' eq_refl) as [-> Hw]. by split; [|constructor].
Qed.

Lemma split_when_last p s :
  ∃ x, last (split_when p s) = Some x
       ∧ Forall (λ c, p c = false) x
       ∧ (s = x ∨ ∃ pre c, p c = true ∧ s = pre ++ c :: x).
Proof.
  induction s as [|c s (x & Hlast & Hx & Hs)]; cbn [split_when].
  - exists []. by repeat split; [|left].
  - destruct (p c) eqn:Hc.
    + destruct (split_when_cons p s) as (w & ws & Hsplit).
      rewrite Hsplit in *. exists x. rewrite last_cons_cons.
      split; [done|]. split; [done|]. right.
      destruct Hs as [->|(pre & c' & Hc' & ->)].
      * by exists [], c.
      * by exists (c :: pre), c'.
    + destruct (split_when p s) as [|w [|w' ws]] eqn:Hsplit;
        [by destruct (split_when_cons p s) as (? & ? & ?); simplify_eq| |].
      * apply split_when_single in Hsplit as [-> Hw].
        exists (c :: w). split; [done|]. split; [by constructor|by left].
      * exists x. rewrite last_cons_cons. rewrite last_cons_cons in Hlast.
        split; [done|]. split; [done|]. right.
        destruct Hs as [->|(pre & c' & Hc' & ->)].
        { rewrite split_when_none in Hsplit by done. done. }
        by exists (c :: pre), c'.
Qed.

(** X28. For a record without structured authors, the family name that
    the key is made of is the part of the first author after its last
    space: it contains no space, and the author is that part alone or
    something, a space, and that part. It is empty when the author ends
    with a space. With structured authors it is the family of the first. *)
Theorem first_author_lastname_is_last_token (b : BibItem) :
  (∀ a l, detailed_authors b = None → authors b = present (a :: l) →
     ∃ x, first_author_lastname b = Ok x
          ∧ (ch " " ∉ x)
          ∧ (a = x ∨ ∃ pre, a = pre ++ ch " " :: x))
  ∧ (∀ f g l, detailed_authors b = Some ({| family := Some f; given := g |} :: l) →
       first_author_lastname b = Ok f).
Proof.
  split.
  - intros a l Hd Ha. unfold first_author_lastname. rewrite Hd, Ha.
    cbn [getattr index lookup list_lookup mbind result_bind].
    destruct (split_when_last (N.eqb (ch " ")) a) as (x & Hlast & Hx & Hs).
    unfold split_on. rewrite Hlast. exists x. split; [done|]. split.
    + intros Hin. eapply Forall_forall in Hx; [|done].
      by rewrite N.eqb_refl in Hx.
    + destruct Hs as [->|(pre & c & ->%N.eqb_eq & ->)]; [by left|].
      right. by exists pre.
  - intros f g l Hd. unfold first_author_lastname. by rewrite Hd.
Qed.

Lemma first_author_lastname_example :
  ∃ x, first_author_lastname (example_record (py "A title")) = Ok x
       ∧ (ch " " ∉ x)
       ∧ (py "Ada Lovelace" = x ∨ ∃ pre, py "Ada Lovelace" = pre ++ ch " " :: x).
Proof.
  exact (proj1 (first_author_lastname_is_last_token
                  (example_record (py "A title")))
           (py "Ada Lovelace") [] eq_refl eq_refl).
Defined.
